(** * WeatherAPIRedis: the cache-aside weather handler of [main.go]

    A shallow embedding of [main] and of the handler [WeatherService.getWeather].
    The packages the program imports (strings, fmt, encoding/json, go-redis,
    net/http, fiber, godotenv, os, log, time) are modelled by one Rocq module
    each, holding just the operations [main.go] calls.  The services the
    process talks to (the Redis server, the weather provider, the log) form an
    explicit [World] that the handler threads through a state monad; every
    call that leaves the process is recorded in the world's trace. *)

From Stdlib Require Import ZArith Floats Ascii String List Lia.
From stdpp Require Import gmap strings list fin_maps.

Local Open Scope string_scope.
Local Open Scope Z_scope.

(** ** Go values *)

(** [interface{}] as [encoding/json] fills it: nil, bool, float64, string,
    []interface{} and map[string]interface{}.  [fiber.Map] is the last one. *)
#[warnings="-register-all"]
Inductive any : Type :=
| Nil
| Bool (b : bool)
| Float64 (f : float)
| Str (s : string)
| Slice (l : list any)
| Object (m : gmap string any).

(** A Go [(value, error)] pair of which exactly one side is meaningful. *)
Inductive result (A E : Type) : Type :=
| Ok (a : A)
| Err (e : E).
Arguments Ok {A E} a.
Arguments Err {A E} e.

(** ** package strings *)

Module strings.

(** [utf8.RuneSelf]: bytes below it are single-byte runes. *)
Definition RuneSelf : N := 128.

Definition isUpper (c : ascii) : bool :=
  (65 <=? N_of_ascii c)%N && (N_of_ascii c <=? 90)%N.

(** [c += 'a' - 'A'] on an upper-case byte. *)
Definition lowerByte (c : ascii) : ascii :=
  if isUpper c then ascii_of_N (N_of_ascii c + 32) else c.

Fixpoint isASCII (s : string) : bool :=
  match s with
  | EmptyString => true
  | String c s' => (N_of_ascii c <? RuneSelf)%N && isASCII s'
  end.

Fixpoint hasUpper (s : string) : bool :=
  match s with
  | EmptyString => false
  | String c s' => isUpper c || hasUpper s'
  end.

Fixpoint mapBytes (f : ascii -> ascii) (s : string) : string :=
  match s with
  | EmptyString => EmptyString
  | String c s' => String (f c) (mapBytes f s')
  end.

(** The case tables of package unicode are not part of the program: the
    slow path [Map(unicode.ToLower, s)] is taken as given. *)
Class Unicode := { MapToLower : string -> string }.

(** [strings.ToLower]: the all-ASCII fast path works on bytes and returns
    the argument itself when it holds no upper-case letter; any other
    string goes through the Unicode tables. *)
Definition ToLower `{Unicode} (s : string) : string :=
  if isASCII s then
    if hasUpper s then mapBytes lowerByte s else s
  else MapToLower s.

(** [strings.EqualFold] on its ASCII path: bytes are equal, or the smaller
    one is an upper-case letter and the larger one its lower-case form. *)
Definition eqFoldByte (sr tr : ascii) : bool :=
  let a := N_of_ascii sr in
  let b := N_of_ascii tr in
  if (a =? b)%N then true
  else
    let lo := N.min a b in
    let hi := N.max a b in
    (65 <=? lo)%N && (lo <=? 90)%N && (hi =? lo + 32)%N.

Fixpoint EqualFold (s t : string) : bool :=
  match s, t with
  | EmptyString, EmptyString => true
  | String a s', String b t' => eqFoldByte a b && EqualFold s' t'
  | _, _ => false
  end.

End strings.

(** ** package fmt *)

Module fmt.

(** [fmt.Sprintf] for the verbs the program uses, [%s] and [%v], on
    operands already rendered as strings (an [error] by its [Error()]). *)
Fixpoint Sprintf (format : string) (args : list string) : string :=
  match format with
  | EmptyString => EmptyString
  | String c rest =>
      if Ascii.eqb c "%" then
        match rest with
        | String v rest' =>
            if Ascii.eqb v "s" || Ascii.eqb v "v" then
              match args with
              | a :: args' => a ++ Sprintf rest' args'
              | [] => "%!" ++ String v "(MISSING)" ++ Sprintf rest' []
              end
            else String c (Sprintf rest args)
        | EmptyString => "%!(NOVERB)"
        end
      else String c (Sprintf rest args)
  end.

End fmt.

(** ** package time *)

Module time.

(** [time.Duration] is an int64 count of nanoseconds. *)
Definition Duration : Type := Z.

Definition int64 (z : Z) : Z := (z + 2 ^ 63) mod 2 ^ 64 - 2 ^ 63.

Definition Second : Duration := 1000000000.
Definition Hour : Duration := 3600 * Second.

(** [d1 * d2] on int64, wrapping. *)
Definition mul (d1 d2 : Duration) : Duration := int64 (d1 * d2).

End time.

(** ** package encoding/json *)

Module json.

Inductive error : Type :=
| SyntaxError (msg : string) (offset : Z)
| UnmarshalTypeError (msg : string)
| UnsupportedValueError (msg : string)
| ReadError (msg : string).

Definition Error (e : error) : string :=
  match e with
  | SyntaxError msg _ => msg
  | UnmarshalTypeError msg => msg
  | UnsupportedValueError msg => msg
  | ReadError msg => msg
  end.

(** A byte the encoder copies into a string as it is: printable ASCII other
    than the quote, the backslash and the three characters it escapes for
    HTML. *)
Definition plainByte (c : ascii) : bool :=
  let n := N_of_ascii c in
  (32 <=? n)%N && (n <=? 126)%N &&
  negb ((n =? 34)%N || (n =? 92)%N || (n =? 60)%N || (n =? 62)%N
        || (n =? 38)%N).

Fixpoint plain (s : string) : bool :=
  match s with
  | EmptyString => true
  | String c s' => plainByte c && plain s'
  end.

(** A string between double quotes. *)
Definition quoted (s : string) : string :=
  String "034" (s ++ String "034" EmptyString).

(** The codec is a library the program calls, not part of it.  The two
    decoding entry points take the bytes and the current content of the
    target and give the content the target is left with, next to the error.
    Three facts about the library are used: [Unmarshal] checks that its
    input is well formed before it stores anything, so a syntax error leaves
    the target as it was; nil is encoded as [null]; and a map with one key
    and a string under it is encoded as the one member between braces, the
    strings copied as they are when they hold plain bytes only. *)
Class Codec := {
  Unmarshal : string -> any -> any * option error;
  Decode : string -> any -> any * option error;
  Marshal : any -> result string error;
  Unmarshal_SyntaxError : forall data v0 v msg off,
    Unmarshal data v0 = (v, Some (SyntaxError msg off)) -> v = v0;
  Marshal_Nil : Marshal Nil = Ok "null";
  Marshal_member : forall key msg,
    plain key = true -> plain msg = true ->
    Marshal (Object {[ key := Str msg ]}) =
    Ok ("{" ++ quoted key ++ ":" ++ quoted msg ++ "}")
}.

End json.

(** ** The world outside the process *)

(** [http.Response], as far as the handler reads it. *)
Record Response := { StatusCode : Z; Body : string }.

(** What [http.Get] fails with when no response is obtained. *)
Record NetError := { netError : string }.

(** A key held by the Redis server: its value and the second at which the
    server drops it. *)
Record Entry := { value : string; expireAt : Z }.

Inductive Event : Type :=
| RedisGet (key : string)
| RedisSetEx (key val : string) (expiration : time.Duration)
| HttpGet (url : string)
| LogLine (line : string).

Record World := {
  store : gmap string Entry;      (* the keys of the Redis server *)
  now : Z;                        (* the server's clock, in seconds *)
  readFault : option string;      (* the connection fails on reads *)
  writeFault : option string;     (* the connection fails on writes *)
  upstream : string -> result Response NetError;
                                  (* the provider's answer to a GET of a URL *)
  trace : list Event              (* calls made so far, oldest first *)
}.

Definition emit (e : Event) (w : World) : World :=
  {| store := store w; now := now w; readFault := readFault w;
     writeFault := writeFault w; upstream := upstream w;
     trace := trace w ++ [e] |}.

Definition setStore (m : gmap string Entry) (w : World) : World :=
  {| store := m; now := now w; readFault := readFault w;
     writeFault := writeFault w; upstream := upstream w;
     trace := trace w |}.

(** Time passing between two requests. *)
Definition advance (dt : Z) (w : World) : World :=
  {| store := store w; now := now w + dt; readFault := readFault w;
     writeFault := writeFault w; upstream := upstream w;
     trace := trace w |}.

(** Computations that act on the world. *)
Definition IO (A : Type) : Type := World -> A * World.

Definition ret {A : Type} (a : A) : IO A := fun w => (a, w).

Definition bind {A B : Type} (m : IO A) (k : A -> IO B) : IO B :=
  fun w => let (a, w') := m w in k a w'.

Notation "'let*' x := m 'in' k" := (bind m (fun x => k))
  (at level 10, x name, m at level 100, k at level 200, only parsing).

(** ** package log *)

Module log.

Definition Println (line : string) : IO unit :=
  fun w => (tt, emit (LogLine line) w).

Definition Printf (format : string) (args : list string) : IO unit :=
  fun w => (tt, emit (LogLine (fmt.Sprintf format args)) w).

End log.

(** ** package go-redis *)

Module redis.

(** [redis.Nil] is the reply for an absent key; anything else is a failure
    of the connection or the server. *)
Inductive error : Type :=
| Nil
| Failure (msg : string).

Definition Error (e : error) : string :=
  match e with
  | Nil => "redis: nil"
  | Failure msg => msg
  end.

Definition isNil (e : error) : bool :=
  match e with Nil => true | Failure _ => false end.

Record Options := { Addr : string; Password : string; DB : Z }.

(** A key is there until its expiry second is reached. *)
Definition live (w : World) (key : string) : option string :=
  match store w !! key with
  | Some e => if now w <? expireAt e then Some (value e) else None
  | None => None
  end.

(** What a GET of [key] comes back with. *)
Definition reply (w : World) (key : string) : result string error :=
  match readFault w with
  | Some msg => Err (Failure msg)
  | None =>
      match live w key with
      | Some v => Ok v
      | None => Err Nil
      end
  end.

(** [client.Get(ctx, key).Result()] *)
Definition Get (key : string) : IO (result string error) :=
  fun w => (reply w key, emit (RedisGet key) w).

(** The whole seconds go-redis sends with SETEX. *)
Definition formatSec (dur : time.Duration) : Z :=
  if (0 <? dur) && (dur <? time.Second) then 1
  else Z.quot dur time.Second.

(** [client.SetEx(ctx, key, value, expiration).Err()]: the server refuses a
    non-positive expiry and otherwise replaces the key. *)
Definition SetEx (key val : string) (expiration : time.Duration)
  : IO (option error) :=
  fun w =>
    let w' := emit (RedisSetEx key val expiration) w in
    match writeFault w with
    | Some msg => (Some (Failure msg), w')
    | None =>
        let secs := formatSec expiration in
        if secs <=? 0 then
          (Some (Failure "ERR invalid expire time in 'setex' command"), w')
        else
          (None,
           setStore
             (<[key := {| value := val; expireAt := now w + secs |}]>
                (store w)) w')
    end.

End redis.

(** ** package net/http *)

Module http.

Definition StatusOK : Z := 200.

(** [http.Get(url)] *)
Definition Get (url : string) : IO (result Response NetError) :=
  fun w => (upstream w url, emit (HttpGet url) w).

End http.

(** ** package fiber *)

Module fiber.

Definition StatusInternalServerError : Z := 500.

Definition MIMEApplicationJSON : string := "application/json".

(** The request context: the parameters the router bound, and the response
    under construction: its status, its content type and the bytes of its
    body. *)
Record Ctx := {
  params : gmap string string;
  status : Z;
  contentType : string;
  body : option string
}.

(** The context of a request to [/weather/:city]; a response starts out
    as 200 with no content type and no body. *)
Definition request (city : string) : Ctx :=
  {| params := {[ "city" := city ]}; status := 200; contentType := "";
     body := None |}.

(** [c.Params(key)]: the empty string when the route has no such
    parameter. *)
Definition Params (c : Ctx) (key : string) : string :=
  default "" (params c !! key).

(** [c.Status(code)] *)
Definition Status (c : Ctx) (code : Z) : Ctx :=
  {| params := params c; status := code; contentType := contentType c;
     body := body c |}.

(** [c.JSON(data)]: the application's encoder, which [fiber.New()] at line
    67 leaves at its default [json.Marshal], turns [data] into bytes.  When
    it fails, its error is what [JSON] returns and the response is left as
    it was; otherwise the bytes become the body and the content type is set.
    The result is the context after the call, next to the returned error. *)
Definition JSON `{json.Codec} (c : Ctx) (data : any)
  : Ctx * option json.error :=
  match json.Marshal data with
  | Err err => (c, Some err)
  | Ok raw =>
      ({| params := params c; status := status c;
          contentType := MIMEApplicationJSON; body := Some raw |}, None)
  end.

(** [fiber.Map{key: msg}] *)
Definition Map (key msg : string) : any := Object {[ key := Str msg ]}.

End fiber.

(** ** main.go *)

Record Config := {
  WeatherAPIKey : string;
  RedisHost : string;
  RedisPort : string;
  RedisPassword : string
}.

Record WeatherService := {
  config : Config;
  redisClient : redis.Options
}.

Section Handler.

Context `{strings.Unicode} `{json.Codec}.

(** Line 82, the key a city is cached under. *)
Definition cacheKey (city : string) : string :=
  fmt.Sprintf "weather:%s" [strings.ToLower city].

(** Line 98, the address the provider is asked at. *)
Definition url (s : WeatherService) (city : string) : string :=
  fmt.Sprintf
    "https://weather.visualcrossing.com/VisualCrossingWebServices/rest/services/timeline/%s?key=%s"
    [city; WeatherAPIKey (config s)].

(** [getWeather]; the result is the context as the handler leaves it, next
    to the error the handler returns. *)
Definition getWeather (s : WeatherService) (c : fiber.Ctx)
  : IO (fiber.Ctx * option json.error) :=
  let city := fiber.Params c "city" in
  let cacheKey := cacheKey city in
  let* r := redis.Get cacheKey in
  match r with
  | Ok cachedData =>
      let* _ := log.Println "Serving from cache" in
      let weatherData := fst (json.Unmarshal cachedData Nil) in
      ret (fiber.JSON c weatherData)
  | Err err =>
      let* _ :=
        if redis.isNil err then ret tt
        else log.Printf "Redis error: %v" [redis.Error err] in
      let url := url s city in
      let* r := http.Get url in
      match r with
      | Err _ =>
          ret (fiber.JSON (fiber.Status c fiber.StatusInternalServerError)
                 (fiber.Map "error" "Failed to fetch weather data"))
      | Ok resp =>
          if negb (StatusCode resp =? http.StatusOK) then
            ret (fiber.JSON (fiber.Status c (StatusCode resp))
                   (fiber.Map "error" "Invalid city or API error"))
          else
            match json.Decode (Body resp) Nil with
            | (_, Some _) =>
                ret (fiber.JSON
                       (fiber.Status c fiber.StatusInternalServerError)
                       (fiber.Map "error" "Failed to parse weather data"))
            | (weatherData, None) =>
                let* _ :=
                  match json.Marshal weatherData with
                  | Err err =>
                      log.Printf "Failed to marshal weather data: %v"
                        [json.Error err]
                  | Ok weatherJSON =>
                      let* e :=
                        redis.SetEx cacheKey weatherJSON
                          (time.mul (12 * 60 * 60) time.Second) in
                      match e with
                      | Some err =>
                          log.Printf "Failed to cache weather data: %v"
                            [redis.Error err]
                      | None => ret tt
                      end
                  end in
                let* _ := log.Println "Serving from API" in
                ret (fiber.JSON c weatherData)
            end
      end
  end.

End Handler.

Arguments cacheKey : simpl never.
Arguments url : simpl never.

(** ** Start-up *)

Module godotenv.

(** [godotenv.Load()]: fails when [.env] cannot be read; otherwise defines
    the variables of the file that the environment does not define yet. *)
Definition Load (file : option (gmap string string))
    (env : gmap string string) : result (gmap string string) string :=
  match file with
  | None => Err "open .env: no such file or directory"
  | Some vars => Ok (env ∪ vars)
  end.

End godotenv.

Module os.

(** [os.Getenv(key)]: the empty string for a variable that is not set. *)
Definition Getenv (env : gmap string string) (key : string) : string :=
  default "" (env !! key).

End os.

(** The machine the process starts on. *)
Record Host := {
  dotenv : option (gmap string string);   (* the [.env] file, if readable *)
  environ : gmap string string;           (* the process environment *)
  ping : redis.Options -> option redis.error
                                          (* how the server answers PING *)
}.

(** How [main] ends: [log.Fatal] before any route exists, or the call of
    [app.Listen] with the one route bound to the service's handler. *)
Inductive Outcome : Type :=
| Fatal (line : string)
| Listen (addr : string) (service : WeatherService).

Definition main (h : Host) : Outcome :=
  match godotenv.Load (dotenv h) (environ h) with
  | Err _ => Fatal "Error loading .env file"
  | Ok env =>
      let config :=
        {| WeatherAPIKey := os.Getenv env "WEATHER_API_KEY";
           RedisHost := os.Getenv env "REDIS_HOST";
           RedisPort := os.Getenv env "REDIS_PORT";
           RedisPassword := os.Getenv env "REDIS_PASSWORD" |} in
      let redisClient :=
        {| redis.Addr :=
             fmt.Sprintf "%s:%s" [RedisHost config; RedisPort config];
           redis.Password := RedisPassword config;
           redis.DB := 0 |} in
      match ping h redisClient with
      | Some err =>
          Fatal (fmt.Sprintf "Failed to connect to Redis: %v"
                   [redis.Error err])
      | None =>
          let service :=
            {| config := config; redisClient := redisClient |} in
          let port := os.Getenv env "PORT" in
          let port := if String.eqb port "" then "3000" else port in
          Listen (":" ++ port) service
      end
  end.

(** The four values the configuration needs. *)
Definition required : list string :=
  ["WEATHER_API_KEY"; "REDIS_HOST"; "REDIS_PORT"; "REDIS_PASSWORD"].

(** A required value is absent: neither the environment nor [.env] has it. *)
Definition absent (h : Host) (key : string) : Prop :=
  environ h !! key = None /\
  forall vars, dotenv h = Some vars -> vars !! key = None.

Definition exitsFatally (o : Outcome) : Prop :=
  match o with Fatal _ => True | Listen _ _ => False end.

(** ** Observations on a run *)

(** Upstream calls and cache writes recorded in a trace. *)
Definition isHttpGet (e : Event) : bool :=
  match e with HttpGet _ => true | _ => false end.

Definition isRedisSetEx (e : Event) : bool :=
  match e with RedisSetEx _ _ _ => true | _ => false end.

Definition upstreamCalls (t : list Event) : nat :=
  length (filter (fun e => isHttpGet e = true) t).

Definition cacheWrites (t : list Event) : nat :=
  length (filter (fun e => isRedisSetEx e = true) t).

(** The world once the lookup of [key] has come back with [err]: the GET is
    on the trace, and a failure other than [redis.Nil] is in the log. *)
Definition afterMiss (key : string) (err : redis.error) (w : World) : World :=
  let w1 := emit (RedisGet key) w in
  if redis.isNil err then w1
  else emit (LogLine (fmt.Sprintf "Redis error: %v" [redis.Error err])) w1.

(** ... and once the provider has been asked at [u]. *)
Definition afterFetch (key u : string) (err : redis.error) (w : World)
  : World :=
  emit (HttpGet u) (afterMiss key err w).

(** The expiry the handler asks for, line 121. *)
Definition ttl : time.Duration := time.mul (12 * 60 * 60) time.Second.

(** What the handler hands back to fiber: the error it returns, and the
    status, content type and body bytes of the response. *)
Definition answer (r : fiber.Ctx * option json.error)
  : option json.error * Z * string * option string :=
  (snd r, fiber.status (fst r), fiber.contentType (fst r), fiber.body (fst r)).

(** The range of success statuses. *)
Definition is2xx (code : Z) : bool := (200 <=? code) && (code <? 300).

(** Cache reads recorded in a trace. *)
Definition isRedisGet (e : Event) : bool :=
  match e with RedisGet _ => true | _ => false end.

Definition cacheReads (t : list Event) : nat :=
  length (filter (fun e => isRedisGet e = true) t).

(** The messages of lines 101, 106 and 113. *)
Definition errorMessages : list string :=
  ["Failed to fetch weather data"; "Invalid city or API error";
   "Failed to parse weather data"].

(** A cache as the handler alone fills it: every value is the serialized
    form of some document, and no entry lasts beyond 43200 seconds from
    now. *)
Definition handlerFilled `{json.Codec} (w : World) : Prop :=
  forall k e,
    store w !! k = Some e ->
    (exists v, json.Marshal v = Ok (value e)) /\ expireAt e <= now w + 43200.

(** ** Test doubles *)

(** Stand-ins for the libraries and services in the worked examples: a
    codec that knows the spec's sample document, a provider that gives one
    fixed answer, and an empty cache. *)
Module double.

Definition quote : string := String "034"%char EmptyString.

(** The text of the sample document, [temp] mapped to 72. *)
Definition temp72 : string := "{" ++ quote ++ "temp" ++ quote ++ ":72}".

Definition temp72Value : any := Object {[ "temp" := Float64 72%float ]}.

(** A stored text with a number no float64 holds, and what the decoder
    leaves in the target while it reports the number. *)
Definition overflow : string := "[1,1e400]".

Definition overflowValue : any :=
  Slice [Float64 1%float; Float64 PrimFloat.infinity].

Definition ascii : strings.Unicode := {| strings.MapToLower := fun s => s |}.

Definition decode (data : string) (v0 : any) : any * option json.error :=
  if String.eqb data temp72 then (temp72Value, None)
  else if String.eqb data "null" then (Nil, None)
  else if String.eqb data overflow then
    (overflowValue,
     Some (json.UnmarshalTypeError
             "json: cannot unmarshal number 1e400 into Go value of type float64"))
  else (v0, Some (json.SyntaxError "invalid character" 1)).

(** The encoder, for flat documents over the numbers 1 and 72. *)
Definition encodeNumber (f : float) : result string json.error :=
  if PrimFloat.is_infinity f || PrimFloat.is_nan f then
    Err (json.UnsupportedValueError "json: unsupported value: +Inf")
  else if PrimFloat.eqb f 72 then Ok "72"
  else if PrimFloat.eqb f 1 then Ok "1"
  else Err (json.UnsupportedValueError "number unknown to the double").

Definition encodeScalar (v : any) : result string json.error :=
  match v with
  | Nil => Ok "null"
  | Bool true => Ok "true"
  | Bool false => Ok "false"
  | Float64 f => encodeNumber f
  | Str s => Ok (json.quoted s)
  | _ => Err (json.UnsupportedValueError "nested value unknown to the double")
  end.

Fixpoint encodeItems (l : list any) : result string json.error :=
  match l with
  | [] => Ok ""
  | x :: l' =>
      match encodeScalar x, encodeItems l' with
      | Ok a, Ok b => Ok (if String.eqb b "" then a else a ++ "," ++ b)
      | Err e, _ => Err e
      | _, Err e => Err e
      end
  end.

Definition encode (v : any) : result string json.error :=
  match v with
  | Slice l =>
      match encodeItems l with
      | Ok items => Ok ("[" ++ items ++ "]")
      | Err e => Err e
      end
  | Object m =>
      match map_to_list m with
      | [] => Ok "{}"
      | [(k, x)] =>
          match encodeScalar x with
          | Ok a => Ok ("{" ++ json.quoted k ++ ":" ++ a ++ "}")
          | Err e => Err e
          end
      | _ => Err (json.UnsupportedValueError "object unknown to the double")
      end
  | _ => encodeScalar v
  end.

Lemma decode_SyntaxError data v0 v msg off :
  decode data v0 = (v, Some (json.SyntaxError msg off)) -> v = v0.
Proof.
  unfold decode.
  destruct (String.eqb data temp72); [discriminate|].
  destruct (String.eqb data "null"); [discriminate|].
  destruct (String.eqb data overflow); [discriminate|].
  congruence.
Qed.

Lemma encode_member key msg :
  json.plain key = true -> json.plain msg = true ->
  encode (Object {[ key := Str msg ]}) =
  Ok ("{" ++ json.quoted key ++ ":" ++ json.quoted msg ++ "}").
Proof. intros _ _. unfold encode. now rewrite map_to_list_singleton. Qed.

Definition codec : json.Codec :=
  {| json.Unmarshal := decode;
     json.Decode := decode;
     json.Marshal := encode;
     json.Unmarshal_SyntaxError := decode_SyntaxError;
     json.Marshal_Nil := eq_refl;
     json.Marshal_member := encode_member |}.


Definition service : WeatherService :=
  {| config :=
       {| WeatherAPIKey := "KEY"; RedisHost := "localhost";
          RedisPort := "6379"; RedisPassword := "secret" |};
     redisClient :=
       {| redis.Addr := "localhost:6379"; redis.Password := "secret";
          redis.DB := 0 |} |}.

(** An empty, healthy cache in front of a provider that always answers
    [r]. *)
Definition world (r : result Response NetError) : World :=
  {| store := ∅; now := 0; readFault := None; writeFault := None;
     upstream := fun _ => r; trace := [] |}.

Definition withReadFault (msg : string) (w : World) : World :=
  {| store := store w; now := now w; readFault := Some msg;
     writeFault := writeFault w; upstream := upstream w;
     trace := trace w |}.



Definition getWeather := @getWeather ascii codec.

(** A machine whose [.env] sets the three Redis values and no API key, next
    to a Redis server that answers PING. *)
Definition hostWithoutKey : Host :=
  {| dotenv :=
       Some (list_to_map
               [("REDIS_HOST", "localhost"); ("REDIS_PORT", "6379");
                ("REDIS_PASSWORD", "secret")]);
     environ := ∅;
     ping := fun _ => None |}.

(** The same machine without its [.env] file, and with the server down. *)
Definition hostWithoutFile : Host :=
  {| dotenv := None; environ := environ hostWithoutKey;
     ping := ping hostWithoutKey |}.

Definition hostRedisDown : Host :=
  {| dotenv := dotenv hostWithoutKey; environ := environ hostWithoutKey;
     ping := fun _ => Some (redis.Failure "dial tcp: connection refused") |}.

End double.

(** ** Strings *)

Lemma append_cons (c : ascii) (s t : string) :
  String c s ++ t = String c (s ++ t).
Proof. reflexivity. Qed.

Lemma append_empty_l (t : string) : "" ++ t = t.
Proof. reflexivity. Qed.

Lemma append_empty_r (s : string) : s ++ "" = s.
Proof.
  induction s as [|c s IH]; [reflexivity|].
  now rewrite append_cons, IH.
Qed.

Lemma length_append (s t : string) :
  String.length (s ++ t) = (String.length s + String.length t)%nat.
Proof.
  induction s as [|c s IH]; [reflexivity|].
  rewrite append_cons; simpl. now rewrite IH.
Qed.

Lemma append_inv_tail (s1 s2 t : string) : s1 ++ t = s2 ++ t -> s1 = s2.
Proof.
  revert s2; induction s1 as [|a s1 IH]; intros [|b s2] E;
    rewrite ?append_cons, ?append_empty_l in E.
  - reflexivity.
  - apply (f_equal String.length) in E; simpl in E.
    rewrite length_append in E; lia.
  - apply (f_equal String.length) in E; simpl in E.
    rewrite length_append in E; lia.
  - injection E as -> E. f_equal. now apply IH.
Qed.

Section StringsFacts.

Context `{strings.Unicode}.

Lemma mapBytes_no_upper (s : string) :
  strings.hasUpper s = false -> strings.mapBytes strings.lowerByte s = s.
Proof.
  induction s as [|c s IH]; simpl; [reflexivity|].
  intros [Hc Hs]%orb_false_iff.
  unfold strings.lowerByte at 1. rewrite Hc. now rewrite IH.
Qed.

(** On an all-ASCII string [ToLower] lowers every byte. *)
Lemma ToLower_ASCII (s : string) :
  strings.isASCII s = true ->
  strings.ToLower s = strings.mapBytes strings.lowerByte s.
Proof.
  intros Hs. unfold strings.ToLower. rewrite Hs.
  destruct (strings.hasUpper s) eqn:Hu; [reflexivity|].
  symmetry. now apply mapBytes_no_upper.
Qed.

Lemma lowerByte_eqFold (a b : ascii) :
  strings.eqFoldByte a b = true -> strings.lowerByte a = strings.lowerByte b.
Proof.
  unfold strings.eqFoldByte, strings.lowerByte, strings.isUpper.
  destruct (N.eqb_spec (N_of_ascii a) (N_of_ascii b)) as [E|NE].
  - intros _. rewrite <- (ascii_N_embedding a), <- (ascii_N_embedding b).
    now rewrite E.
  - intros [[Hlo Hhi]%andb_true_iff Hsum%N.eqb_eq]%andb_true_iff.
    apply N.leb_le in Hlo, Hhi.
    destruct (N.le_ge_cases (N_of_ascii a) (N_of_ascii b)) as [L|L].
    + rewrite N.min_l, N.max_r in * by assumption.
      replace (65 <=? N_of_ascii a)%N with true by (symmetry; now apply N.leb_le).
      replace (N_of_ascii a <=? 90)%N with true by (symmetry; now apply N.leb_le).
      replace (N_of_ascii b <=? 90)%N with false
        by (symmetry; apply N.leb_gt; lia).
      rewrite andb_false_r; simpl.
      rewrite <- Hsum. apply ascii_N_embedding.
    + rewrite N.min_r, N.max_l in * by assumption.
      replace (65 <=? N_of_ascii b)%N with true by (symmetry; now apply N.leb_le).
      replace (N_of_ascii b <=? 90)%N with true by (symmetry; now apply N.leb_le).
      replace (N_of_ascii a <=? 90)%N with false
        by (symmetry; apply N.leb_gt; lia).
      rewrite andb_false_r; simpl.
      rewrite <- Hsum. symmetry. apply ascii_N_embedding.
Qed.

Lemma mapBytes_EqualFold (s t : string) :
  strings.EqualFold s t = true ->
  strings.mapBytes strings.lowerByte s = strings.mapBytes strings.lowerByte t.
Proof.
  revert t; induction s as [|a s IH]; intros [|b t]; simpl;
    try discriminate; [reflexivity|].
  intros [Hab Hst]%andb_true_iff.
  rewrite (lowerByte_eqFold a b Hab). now rewrite (IH t Hst).
Qed.

Lemma cacheKey_eq (city : string) :
  cacheKey city = "weather:" ++ strings.ToLower city.
Proof. unfold cacheKey; cbn. now rewrite append_empty_r. Qed.

Lemma url_eq (s : WeatherService) (city : string) :
  url s city =
  "https://weather.visualcrossing.com/VisualCrossingWebServices/rest/services/timeline"
  ++ "/" ++ city ++ "?key=" ++ WeatherAPIKey (config s).
Proof. unfold url; cbn. now rewrite append_empty_r. Qed.

End StringsFacts.

(** ** The paths through [getWeather] *)

Lemma Params_request (city : string) :
  fiber.Params (fiber.request city) "city" = city.
Proof. unfold fiber.Params, fiber.request; simpl. now rewrite lookup_singleton_eq. Qed.

Lemma trace_emit (e : Event) (w : World) :
  trace (emit e w) = (trace w ++ [e])%list.
Proof. reflexivity. Qed.

Section Paths.

Context `{strings.Unicode} `{json.Codec}.
Variables (s : WeatherService) (city : string) (w : World).

Local Abbreviation c := (fiber.request city).
Local Abbreviation key := (cacheKey city).
Local Abbreviation fetched err := (afterFetch key (url s city) err w).

(** Hit: lines 86 to 92. *)
Lemma getWeather_hit (cachedData : string) :
  redis.reply w key = Ok cachedData ->
  getWeather s c w =
  (fiber.JSON c (fst (json.Unmarshal cachedData Nil)),
   emit (LogLine "Serving from cache") (emit (RedisGet key) w)).
Proof.
  intros Hr. unfold getWeather, bind, redis.Get.
  rewrite Params_request, Hr. reflexivity.
Qed.

(** The provider cannot be reached: lines 99 to 102. *)
Lemma getWeather_unreachable (err : redis.error) (e : NetError) :
  redis.reply w key = Err err ->
  upstream w (url s city) = Err e ->
  getWeather s c w =
  (fiber.JSON (fiber.Status c 500)
     (fiber.Map "error" "Failed to fetch weather data"),
   fetched err).
Proof.
  intros Hr Hu. unfold getWeather, bind, redis.Get, http.Get.
  rewrite Params_request, Hr.
  unfold afterFetch, afterMiss.
  destruct (redis.isNil err); cbn; rewrite Hu; reflexivity.
Qed.

(** The provider answers with another status than 200: lines 105 to 107. *)
Lemma getWeather_rejected (err : redis.error) (resp : Response) :
  redis.reply w key = Err err ->
  upstream w (url s city) = Ok resp ->
  StatusCode resp <> 200 ->
  getWeather s c w =
  (fiber.JSON (fiber.Status c (StatusCode resp))
     (fiber.Map "error" "Invalid city or API error"),
   fetched err).
Proof.
  intros Hr Hu Hs. unfold getWeather, bind, redis.Get, http.Get.
  rewrite Params_request, Hr.
  unfold afterFetch, afterMiss, http.StatusOK.
  apply Z.eqb_neq in Hs.
  destruct (redis.isNil err); cbn; rewrite Hu, Hs; reflexivity.
Qed.

(** The body of a 200 does not decode: lines 110 to 114. *)
Lemma getWeather_malformed (err : redis.error) (resp : Response)
    (v : any) (e : json.error) :
  redis.reply w key = Err err ->
  upstream w (url s city) = Ok resp ->
  StatusCode resp = 200 ->
  json.Decode (Body resp) Nil = (v, Some e) ->
  getWeather s c w =
  (fiber.JSON (fiber.Status c 500)
     (fiber.Map "error" "Failed to parse weather data"),
   fetched err).
Proof.
  intros Hr Hu Hs Hd. unfold getWeather, bind, redis.Get, http.Get.
  rewrite Params_request, Hr.
  unfold afterFetch, afterMiss, http.StatusOK.
  destruct (redis.isNil err); cbn; rewrite Hu, Hs, Hd; reflexivity.
Qed.

(** The payload does not serialize: lines 117 to 119, 127, 128. *)
Lemma getWeather_unserializable (err : redis.error) (resp : Response)
    (v : any) (e : json.error) :
  redis.reply w key = Err err ->
  upstream w (url s city) = Ok resp ->
  StatusCode resp = 200 ->
  json.Decode (Body resp) Nil = (v, None) ->
  json.Marshal v = Err e ->
  getWeather s c w =
  (fiber.JSON c v,
   emit (LogLine "Serving from API")
     (emit (LogLine
              (fmt.Sprintf "Failed to marshal weather data: %v"
                 [json.Error e]))
        (fetched err))).
Proof.
  intros Hr Hu Hs Hd Hm. unfold getWeather, bind, redis.Get, http.Get.
  rewrite Params_request, Hr.
  unfold afterFetch, afterMiss, http.StatusOK.
  destruct (redis.isNil err); cbn; rewrite Hu, Hs, Hd, Hm; reflexivity.
Qed.

(** What [SetEx] does to a world, given what the handler passes it. *)
Lemma SetEx_ttl (k val : string) (w0 : World) :
  redis.SetEx k val (time.mul (12 * 60 * 60) time.Second) w0 =
  match writeFault w0 with
  | Some msg =>
      (Some (redis.Failure msg), emit (RedisSetEx k val ttl) w0)
  | None =>
      (None,
       setStore
         (<[k := {| value := val; expireAt := now w0 + 43200 |}]> (store w0))
         (emit (RedisSetEx k val ttl) w0))
  end.
Proof. unfold redis.SetEx. destruct (writeFault w0); reflexivity. Qed.

(** The store refuses the write: lines 121 to 124, 127, 128. *)
Lemma getWeather_unwritable (err : redis.error) (resp : Response)
    (v : any) (weatherJSON msg : string) :
  redis.reply w key = Err err ->
  upstream w (url s city) = Ok resp ->
  StatusCode resp = 200 ->
  json.Decode (Body resp) Nil = (v, None) ->
  json.Marshal v = Ok weatherJSON ->
  writeFault w = Some msg ->
  getWeather s c w =
  (fiber.JSON c v,
   emit (LogLine "Serving from API")
     (emit (LogLine
              (fmt.Sprintf "Failed to cache weather data: %v" [msg]))
        (emit (RedisSetEx key weatherJSON ttl) (fetched err)))).
Proof.
  intros Hr Hu Hs Hd Hm Hw. unfold getWeather, bind, http.Get.
  rewrite Params_request. unfold redis.Get at 1. rewrite Hr.
  unfold afterFetch, afterMiss, http.StatusOK.
  destruct (redis.isNil err); cbn -[redis.SetEx];
    rewrite Hu, Hs, Hd, Hm; cbn -[redis.SetEx];
    rewrite SetEx_ttl; cbn; rewrite Hw; reflexivity.
Qed.

(** The whole miss path: lines 98 to 128. *)
Lemma getWeather_stored (err : redis.error) (resp : Response)
    (v : any) (weatherJSON : string) :
  redis.reply w key = Err err ->
  upstream w (url s city) = Ok resp ->
  StatusCode resp = 200 ->
  json.Decode (Body resp) Nil = (v, None) ->
  json.Marshal v = Ok weatherJSON ->
  writeFault w = None ->
  getWeather s c w =
  (fiber.JSON c v,
   emit (LogLine "Serving from API")
     (setStore
        (<[key := {| value := weatherJSON; expireAt := now w + 43200 |}]>
           (store w))
        (emit (RedisSetEx key weatherJSON ttl) (fetched err)))).
Proof.
  intros Hr Hu Hs Hd Hm Hw. unfold getWeather, bind, http.Get.
  rewrite Params_request. unfold redis.Get at 1. rewrite Hr.
  unfold afterFetch, afterMiss, http.StatusOK.
  destruct (redis.isNil err); cbn -[redis.SetEx];
    rewrite Hu, Hs, Hd, Hm; cbn -[redis.SetEx];
    rewrite SetEx_ttl; cbn; rewrite Hw; reflexivity.
Qed.

End Paths.

(** ** Counting calls on a trace *)

Lemma upstreamCalls_app (t1 t2 : list Event) :
  upstreamCalls (t1 ++ t2) = (upstreamCalls t1 + upstreamCalls t2)%nat.
Proof. unfold upstreamCalls. now rewrite filter_app, length_app. Qed.

Lemma cacheWrites_app (t1 t2 : list Event) :
  cacheWrites (t1 ++ t2) = (cacheWrites t1 + cacheWrites t2)%nat.
Proof. unfold cacheWrites. now rewrite filter_app, length_app. Qed.

Lemma upstreamCalls_cons (e : Event) (t : list Event) :
  upstreamCalls (e :: t) =
  ((if isHttpGet e then 1 else 0) + upstreamCalls t)%nat.
Proof.
  unfold upstreamCalls. rewrite filter_cons.
  destruct (isHttpGet e); case_decide; simpl; congruence.
Qed.

Lemma cacheWrites_cons (e : Event) (t : list Event) :
  cacheWrites (e :: t) =
  ((if isRedisSetEx e then 1 else 0) + cacheWrites t)%nat.
Proof.
  unfold cacheWrites. rewrite filter_cons.
  destruct (isRedisSetEx e); case_decide; simpl; congruence.
Qed.

Lemma upstreamCalls_nil : upstreamCalls [] = 0%nat.
Proof. reflexivity. Qed.

Lemma cacheWrites_nil : cacheWrites [] = 0%nat.
Proof. reflexivity. Qed.

(** Normalises the counters of a trace that ends in known events. *)
Ltac count_events :=
  repeat first
    [ rewrite trace_emit | rewrite upstreamCalls_app | rewrite cacheWrites_app
    | rewrite upstreamCalls_cons | rewrite cacheWrites_cons
    | rewrite upstreamCalls_nil | rewrite cacheWrites_nil ];
  cbn [isHttpGet isRedisSetEx].

Lemma trace_afterMiss (k : string) (err : redis.error) (w : World) :
  trace (afterMiss k err w) =
  (trace w ++ RedisGet k ::
     if redis.isNil err then []
     else [LogLine (fmt.Sprintf "Redis error: %v" [redis.Error err])])%list.
Proof.
  unfold afterMiss. destruct (redis.isNil err); cbn -[fmt.Sprintf].
  - reflexivity.
  - now rewrite <- app_assoc.
Qed.

Lemma trace_afterFetch (k u : string) (err : redis.error) (w : World) :
  trace (afterFetch k u err w) =
  (trace w ++ RedisGet k ::
     (if redis.isNil err then []
      else [LogLine (fmt.Sprintf "Redis error: %v" [redis.Error err])])
     ++ [HttpGet u])%list.
Proof.
  unfold afterFetch. rewrite trace_emit, trace_afterMiss.
  now rewrite <- app_assoc.
Qed.

Lemma store_afterFetch (k u : string) (err : redis.error) (w : World) :
  store (afterFetch k u err w) = store w.
Proof. unfold afterFetch, afterMiss. now destruct (redis.isNil err). Qed.

Lemma store_afterMiss (k : string) (err : redis.error) (w : World) :
  store (afterMiss k err w) = store w.
Proof. unfold afterMiss. now destruct (redis.isNil err). Qed.

Lemma now_afterMiss (k : string) (err : redis.error) (w : World) :
  now (afterMiss k err w) = now w.
Proof. unfold afterMiss. now destruct (redis.isNil err). Qed.

Lemma cacheWrites_afterFetch (k u : string) (err : redis.error) (w : World) :
  cacheWrites (trace (afterFetch k u err w)) = cacheWrites (trace w).
Proof.
  rewrite trace_afterFetch.
  destruct (redis.isNil err); count_events; lia.
Qed.

Lemma upstreamCalls_afterFetch (k u : string) (err : redis.error) (w : World) :
  upstreamCalls (trace (afterFetch k u err w)) = S (upstreamCalls (trace w)).
Proof.
  rewrite trace_afterFetch.
  destruct (redis.isNil err); count_events; lia.
Qed.

(** ** The cache key and the provider URL *)

Section Keys.

Context `{strings.Unicode} `{json.Codec}.


End Keys.



(** ** What a miss leaves on the trace *)

(** Splits a miss into the six ways lines 98 to 128 can run, and rewrites the
    run with the lemma of its path. *)
Ltac miss_cases s city w Hr :=
  let resp := fresh "resp" in
  let Hu := fresh "Hu" in
  let Hs := fresh "Hs" in
  let Hd := fresh "Hd" in
  let Hm := fresh "Hm" in
  let Hw := fresh "Hw" in
  destruct (upstream w (url s city)) as [resp|?e] eqn:Hu;
  [ destruct (Z.eq_dec (StatusCode resp) 200) as [Hs|Hs];
    [ destruct (json.Decode (Body resp) Nil) as [?v [?e|]] eqn:Hd;
      [ rewrite (getWeather_malformed _ _ _ _ _ _ _ Hr Hu Hs Hd)
      | match type of Hd with
        | _ = (?v, None) =>
            destruct (json.Marshal v) as [?js|?e] eqn:Hm;
            [ destruct (writeFault w) as [?msg|] eqn:Hw;
              [ rewrite (getWeather_unwritable _ _ _ _ _ _ _ _
                           Hr Hu Hs Hd Hm Hw)
              | rewrite (getWeather_stored _ _ _ _ _ _ _ Hr Hu Hs Hd Hm Hw) ]
            | rewrite (getWeather_unserializable _ _ _ _ _ _ _
                         Hr Hu Hs Hd Hm) ]
        end ]
    | rewrite (getWeather_rejected _ _ _ _ _ Hr Hu Hs) ]
  | rewrite (getWeather_unreachable _ _ _ _ _ Hr Hu) ].

Section Miss.

Context `{strings.Unicode} `{json.Codec}.
Variables (s : WeatherService) (city : string) (w : World).

(** On a miss the provider is asked once, at [url s city], and nothing that
    follows is another upstream call. *)
Lemma getWeather_miss_trace (err : redis.error) :
  redis.reply w (cacheKey city) = Err err ->
  exists after,
    trace (snd (getWeather s (fiber.request city) w)) =
    (trace (afterFetch (cacheKey city) (url s city) err w) ++ after)%list /\
    upstreamCalls after = 0%nat.
Proof.
  intros Hr. miss_cases s city w Hr; cbn [snd].
  - exists []; split; [now rewrite app_nil_r | reflexivity].
  - eexists [_; _; _]; split.
    + rewrite !trace_emit, <- !app_assoc. reflexivity.
    + now count_events.
  - eexists [_; _]; split.
    + cbn [trace emit setStore]. rewrite <- !app_assoc. reflexivity.
    + now count_events.
  - eexists [_; _]; split.
    + rewrite !trace_emit, <- !app_assoc. reflexivity.
    + now count_events.
  - exists []; split; [now rewrite app_nil_r | reflexivity].
  - exists []; split; [now rewrite app_nil_r | reflexivity].
Qed.

End Miss.

(** C9. The provider is asked at the base URL, a slash, the city as the
    request gave it, "?key=" and the API key: the city is neither lowered nor
    escaped, so two cities that differ, be it only in case, are asked at two
    different addresses.  On a miss this is the one upstream call made. *)
Theorem url_embeds_city_verbatim `{strings.Unicode} `{json.Codec} :
  (forall s city,
      url s city =
      "https://weather.visualcrossing.com/VisualCrossingWebServices/rest/services/timeline"
      ++ "/" ++ city ++ "?key=" ++ WeatherAPIKey (config s)) /\
  (forall s c1 c2, url s c1 = url s c2 -> c1 = c2) /\
  (forall s city w err,
      redis.reply w (cacheKey city) = Err err ->
      exists before after,
        trace (snd (getWeather s (fiber.request city) w)) =
        (trace w ++ before ++ HttpGet (url s city) :: after)%list /\
        upstreamCalls before = 0%nat /\ upstreamCalls after = 0%nat).
Proof.
  split; [apply url_eq|]. split.
  - intros s c1 c2. rewrite !url_eq. intros E.
    apply (inj (String.append _)) in E.
    apply (inj (String.append _)) in E.
    now apply append_inv_tail in E.
  - intros s city w err Hr.
    destruct (getWeather_miss_trace s city w err Hr) as (after & Ht & Ha).
    rewrite Ht, trace_afterFetch.
    exists (RedisGet (cacheKey city) ::
              if redis.isNil err then []
              else [LogLine (fmt.Sprintf "Redis error: %v" [redis.Error err])]).
    exists after. split; [|split; [|exact Ha]].
    + destruct (redis.isNil err); cbn [app]; now rewrite <- !app_assoc.
    + destruct (redis.isNil err); now count_events.
Qed.

(** A request for "Boston" on an empty cache asks the provider for "Boston",
    not for the "boston" of the cache key. *)
Lemma url_embeds_city_verbatim_witness :
  @url double.service "Boston" =
  "https://weather.visualcrossing.com/VisualCrossingWebServices/rest/services/timeline/Boston?key=KEY" /\
  exists before after,
    trace (snd (double.getWeather double.service (fiber.request "Boston")
                  (double.world (Err {| netError := "connection refused" |})))) =
    ([] ++ before ++ HttpGet (@url double.service "Boston") :: after)%list /\
    upstreamCalls before = 0%nat /\ upstreamCalls after = 0%nat.
Proof.
  destruct (@url_embeds_city_verbatim double.ascii double.codec)
    as (Hurl & _ & Hcall).
  split.
  - rewrite Hurl. reflexivity.
  - exact (Hcall double.service "Boston"
             (double.world (Err {| netError := "connection refused" |}))
             redis.Nil eq_refl).
Defined.

(** ** Responses *)

Section Responses.

Context `{json.Codec}.

Lemma JSON_Ok (c : fiber.Ctx) (v : any) (raw : string) :
  json.Marshal v = Ok raw ->
  fiber.JSON c v =
  ({| fiber.params := fiber.params c; fiber.status := fiber.status c;
      fiber.contentType := "application/json"; fiber.body := Some raw |},
   None).
Proof. intros Hm. unfold fiber.JSON. now rewrite Hm. Qed.

Lemma JSON_Err (c : fiber.Ctx) (v : any) (e : json.error) :
  json.Marshal v = Err e -> fiber.JSON c v = (c, Some e).
Proof. intros Hm. unfold fiber.JSON. now rewrite Hm. Qed.

(** A document the encoder accepts is answered with the status the context
    has, as JSON, with the encoding as the body. *)
Lemma answer_JSON_Ok (c : fiber.Ctx) (v : any) (raw : string) :
  json.Marshal v = Ok raw ->
  answer (fiber.JSON c v) =
  (None, fiber.status c, "application/json", Some raw).
Proof. intros Hm. now rewrite (JSON_Ok c v raw Hm). Qed.

(** The error documents of the handler always encode. *)
Lemma answer_JSON_Map (c : fiber.Ctx) (msg : string) :
  json.plain msg = true ->
  answer (fiber.JSON c (fiber.Map "error" msg)) =
  (None, fiber.status c, "application/json",
   Some ("{" ++ json.quoted "error" ++ ":" ++ json.quoted msg ++ "}")).
Proof.
  intros Hp. apply answer_JSON_Ok. unfold fiber.Map.
  now apply json.Marshal_member.
Qed.

End Responses.

(** ** Hits *)

Lemma reply_Ok_live (w : World) (key data : string) :
  redis.reply w key = Ok data <->
  readFault w = None /\ redis.live w key = Some data.
Proof.
  unfold redis.reply.
  destruct (readFault w); [split; [discriminate | intros [? _]; discriminate]|].
  destruct (redis.live w key); split; try intros [_ ?]; try congruence;
    try discriminate.
  intros E; injection E as ->; now split.
Qed.

Lemma live_advance_insert (w : World) (key val : string) (m : gmap string Entry)
    (secs dt : Z) :
  store w = <[key := {| value := val; expireAt := now w - dt + secs |}]> m ->
  0 <= dt < secs ->
  redis.live w key = Some val.
Proof.
  intros Hs Hdt. unfold redis.live. rewrite Hs, lookup_insert_eq; simpl.
  destruct (Z.ltb_spec (now w) (now w - dt + secs)); [reflexivity | lia].
Qed.




(** ** Upstream answers *)

(** C3, as the spec has it, fails: a 201 with a body that decodes and
    encodes is inside the 2xx range and is still answered as an error. *)
Lemma status_2xx_counterexample :
  ~ (forall (U : strings.Unicode) (J : json.Codec) s city w err resp v raw,
        redis.reply w (cacheKey city) = Err err ->
        upstream w (url s city) = Ok resp ->
        is2xx (StatusCode resp) = true ->
        json.Decode (Body resp) Nil = (v, None) ->
        json.Marshal v = Ok raw ->
        answer (fst (getWeather s (fiber.request city) w)) =
        (None, 200, "application/json", Some raw)).
Proof.
  intros claim.
  specialize (claim double.ascii double.codec double.service "Boston"
                (double.world (Ok {| StatusCode := 201; Body := double.temp72 |}))
                redis.Nil {| StatusCode := 201; Body := double.temp72 |}
                double.temp72Value double.temp72
                eq_refl eq_refl eq_refl eq_refl eq_refl).
  vm_compute in claim. discriminate claim.
Qed.

(** C3, amended. On a miss the answer of the provider counts as a failure
    exactly when its status is not 200.  A 200 whose body decodes is
    answered through [c.JSON] with the decoded payload on the untouched 200,
    which is a 200 with the payload's encoding as the body; any other
    status, 2xx or not, is answered with that status and the error document
    about the city or the API. *)
Theorem status_200_or_error `{strings.Unicode} `{json.Codec}
    (s : WeatherService) (city : string) (w : World) (err : redis.error)
    (resp : Response) :
  redis.reply w (cacheKey city) = Err err ->
  upstream w (url s city) = Ok resp ->
  (forall v,
      StatusCode resp = 200 ->
      json.Decode (Body resp) Nil = (v, None) ->
      fst (getWeather s (fiber.request city) w) =
      fiber.JSON (fiber.request city) v /\
      forall raw,
        json.Marshal v = Ok raw ->
        answer (fst (getWeather s (fiber.request city) w)) =
        (None, 200, "application/json", Some raw)) /\
  (StatusCode resp <> 200 ->
   answer (fst (getWeather s (fiber.request city) w)) =
   (None, StatusCode resp, "application/json",
    Some ("{" ++ String "034" "error" ++ String "034" ":"
          ++ String "034" "Invalid city or API error" ++ String "034" "}"))).
Proof.
  intros Hr Hu. split.
  - intros v Hs Hd.
    assert (Hrun : fst (getWeather s (fiber.request city) w) =
                   fiber.JSON (fiber.request city) v).
    { destruct (json.Marshal v) as [js|e] eqn:Hm.
      - destruct (writeFault w) as [msg|] eqn:Hw.
        + now rewrite (getWeather_unwritable _ _ _ _ _ _ _ _ Hr Hu Hs Hd Hm Hw).
        + now rewrite (getWeather_stored _ _ _ _ _ _ _ Hr Hu Hs Hd Hm Hw).
      - now rewrite (getWeather_unserializable _ _ _ _ _ _ _ Hr Hu Hs Hd Hm). }
    split; [exact Hrun|].
    intros raw Hm. rewrite Hrun. now apply answer_JSON_Ok.
  - intros Hs. rewrite (getWeather_rejected _ _ _ _ _ Hr Hu Hs). cbn [fst].
    now rewrite answer_JSON_Map.
Qed.

(** A 404 of the provider is handed on as a 404. *)
Lemma status_200_or_error_witness :
  answer (fst (double.getWeather double.service (fiber.request "Atlantis")
                 (double.world (Ok {| StatusCode := 404; Body := "" |})))) =
  (None, 404, "application/json",
   Some ("{" ++ String "034" "error" ++ String "034" ":"
         ++ String "034" "Invalid city or API error" ++ String "034" "}")).
Proof.
  apply (proj2 (@status_200_or_error double.ascii double.codec
                  double.service "Atlantis"
                  (double.world (Ok {| StatusCode := 404; Body := "" |}))
                  redis.Nil {| StatusCode := 404; Body := "" |}
                  eq_refl eq_refl)).
  discriminate.
Defined.

(** C4. On a miss, each of the three upstream failures is answered with no
    handler error and a JSON body that is an object with the one member
    "error" and a message, and leaves the cache alone: no write is attempted
    and the store is as before.  A provider that cannot be reached gives 500
    and "Failed to fetch weather data"; a status other than 200 is handed on
    as it is; a 200 whose body does not decode gives 500. *)
Theorem upstream_failure_not_cached `{strings.Unicode} `{json.Codec}
    (s : WeatherService) (city : string) (w : World) (err : redis.error) :
  redis.reply w (cacheKey city) = Err err ->
  let (r, w') := getWeather s (fiber.request city) w in
  (forall e,
      upstream w (url s city) = Err e ->
      answer r =
      (None, 500, "application/json",
       Some ("{" ++ String "034" "error" ++ String "034" ":"
             ++ String "034" "Failed to fetch weather data"
             ++ String "034" "}")) /\
      cacheWrites (trace w') = cacheWrites (trace w) /\ store w' = store w) /\
  (forall resp,
      upstream w (url s city) = Ok resp ->
      StatusCode resp <> 200 ->
      answer r =
      (None, StatusCode resp, "application/json",
       Some ("{" ++ String "034" "error" ++ String "034" ":"
             ++ String "034" "Invalid city or API error"
             ++ String "034" "}")) /\
      cacheWrites (trace w') = cacheWrites (trace w) /\ store w' = store w) /\
  (forall resp v e,
      upstream w (url s city) = Ok resp ->
      StatusCode resp = 200 ->
      json.Decode (Body resp) Nil = (v, Some e) ->
      answer r =
      (None, 500, "application/json",
       Some ("{" ++ String "034" "error" ++ String "034" ":"
             ++ String "034" "Failed to parse weather data"
             ++ String "034" "}")) /\
      cacheWrites (trace w') = cacheWrites (trace w) /\ store w' = store w).
Proof.
  intros Hr.
  destruct (getWeather s (fiber.request city) w) as [r w'] eqn:Hrun.
  split; [|split].
  - intros e Hu.
    rewrite (getWeather_unreachable _ _ _ _ _ Hr Hu) in Hrun.
    injection Hrun as <- <-.
    now rewrite answer_JSON_Map, cacheWrites_afterFetch, store_afterFetch.
  - intros resp Hu Hs.
    rewrite (getWeather_rejected _ _ _ _ _ Hr Hu Hs) in Hrun.
    injection Hrun as <- <-.
    now rewrite answer_JSON_Map, cacheWrites_afterFetch, store_afterFetch.
  - intros resp v e Hu Hs Hd.
    rewrite (getWeather_malformed _ _ _ _ _ _ _ Hr Hu Hs Hd) in Hrun.
    injection Hrun as <- <-.
    now rewrite answer_JSON_Map, cacheWrites_afterFetch, store_afterFetch.
Qed.

(** The spec's scenario 3: the connection to the provider is refused. *)
Lemma upstream_failure_not_cached_witness :
  let w := double.world (Err {| netError := "connection refused" |}) in
  let (r, w') := double.getWeather double.service (fiber.request "Boston") w in
  answer r =
  (None, 500, "application/json",
   Some ("{" ++ String "034" "error" ++ String "034" ":"
         ++ String "034" "Failed to fetch weather data" ++ String "034" "}")) /\
  cacheWrites (trace w') = 0%nat /\ store w' = ∅.
Proof.
  exact (proj1 (@upstream_failure_not_cached double.ascii double.codec
                  double.service "Boston"
                  (double.world (Err {| netError := "connection refused" |}))
                  redis.Nil eq_refl)
           {| netError := "connection refused" |} eq_refl).
Defined.

(** ** The cache write *)

Lemma ttl_twelve_hours :
  ttl = 12 * time.Hour /\ redis.formatSec ttl = 43200.
Proof. split; reflexivity. Qed.

(** C5. A miss whose fetch succeeds and whose payload serializes writes the
    cache once: one SETEX, of the derived key, with the serialized payload
    and an expiry of twelve hours, that is 43200 seconds.  When the store
    takes the write, the key is the one entry that changes, it reads back as
    the serialized payload for the next 43200 seconds and is gone after. *)
Theorem miss_writes_one_entry `{strings.Unicode} `{json.Codec}
    (s : WeatherService) (city : string) (w : World) (err : redis.error)
    (resp : Response) (v : any) (weatherJSON : string) :
  redis.reply w (cacheKey city) = Err err ->
  upstream w (url s city) = Ok resp ->
  StatusCode resp = 200 ->
  json.Decode (Body resp) Nil = (v, None) ->
  json.Marshal v = Ok weatherJSON ->
  let w' := snd (getWeather s (fiber.request city) w) in
  filter (fun e => isRedisSetEx e = true) (trace w') =
  (filter (fun e => isRedisSetEx e = true) (trace w)
     ++ [RedisSetEx (cacheKey city) weatherJSON ttl])%list /\
  cacheWrites (trace w') = S (cacheWrites (trace w)) /\
  redis.formatSec ttl = 12 * 60 * 60 /\
  (writeFault w = None ->
   store w' =
   <[cacheKey city :=
       {| value := weatherJSON; expireAt := now w + 43200 |}]> (store w) /\
   (forall k, k <> cacheKey city -> store w' !! k = store w !! k) /\
   (forall dt, 0 <= dt < 43200 ->
               redis.live (advance dt w') (cacheKey city) = Some weatherJSON) /\
   (forall dt, 43200 <= dt ->
               redis.live (advance dt w') (cacheKey city) = None)).
Proof.
  intros Hr Hu Hs Hd Hm w'.
  assert (Hfilter : forall (t : list Event) (e : Event),
             filter (fun e => isRedisSetEx e = true) (t ++ [e])%list =
             (filter (fun e => isRedisSetEx e = true) t ++
                if isRedisSetEx e then [e] else [])%list).
  { intros t e. rewrite filter_app, filter_cons, filter_nil.
    destruct (isRedisSetEx e); case_decide; congruence. }
  assert (Hfetch :
            filter (fun e => isRedisSetEx e = true)
              (trace (afterFetch (cacheKey city) (url s city) err w)) =
            filter (fun e => isRedisSetEx e = true) (trace w)).
  { unfold afterFetch, afterMiss.
    destruct (redis.isNil err); rewrite !trace_emit, !Hfilter; cbn;
      now rewrite !app_nil_r. }
  destruct (writeFault w) as [msg|] eqn:Hw; subst w'.
  - rewrite (getWeather_unwritable _ _ _ _ _ _ _ _ Hr Hu Hs Hd Hm Hw).
    cbn [snd]. repeat split; try discriminate.
    + rewrite !trace_emit, !Hfilter, Hfetch; cbn. now rewrite !app_nil_r.
    + count_events. rewrite cacheWrites_afterFetch. lia.
  - rewrite (getWeather_stored _ _ _ _ _ _ _ Hr Hu Hs Hd Hm Hw).
    cbn [snd]. repeat split.
    + cbn [trace emit setStore]. rewrite !Hfilter, Hfetch; cbn.
      now rewrite !app_nil_r.
    + cbn [trace emit setStore]. count_events.
      rewrite cacheWrites_afterFetch. lia.
    + intros k Hk. cbn. now rewrite lookup_insert_ne.
    + intros dt Hdt. unfold redis.live; cbn.
      rewrite lookup_insert_eq, now_afterMiss; cbn.
      destruct (Z.ltb_spec (now w + dt) (now w + 43200)); [reflexivity | lia].
    + intros dt Hdt. unfold redis.live; cbn.
      rewrite lookup_insert_eq, now_afterMiss; cbn.
      destruct (Z.ltb_spec (now w + dt) (now w + 43200)); [lia | reflexivity].
Qed.

(** The spec's scenario 1: "Boston" on an empty cache. *)
Lemma miss_writes_one_entry_witness :
  let w := double.world (Ok {| StatusCode := 200; Body := double.temp72 |}) in
  let w' :=
    snd (double.getWeather double.service (fiber.request "Boston") w) in
  filter (fun e => isRedisSetEx e = true) (trace w') =
  [RedisSetEx "weather:boston" double.temp72 43200000000000] /\
  store w' !! "weather:boston" =
  Some {| value := double.temp72; expireAt := 43200 |}.
Proof.
  destruct (@miss_writes_one_entry double.ascii double.codec
              double.service "Boston"
              (double.world (Ok {| StatusCode := 200; Body := double.temp72 |}))
              redis.Nil {| StatusCode := 200; Body := double.temp72 |}
              double.temp72Value double.temp72
              eq_refl eq_refl eq_refl eq_refl eq_refl)
    as (Hwrites & _ & _ & Hstore).
  split.
  - exact Hwrites.
  - destruct (Hstore eq_refl) as (-> & _). reflexivity.
Defined.




(** ** Cache failures on the read side *)

(** Two runs that took the same path, one after a failed read and one after
    an absent key: the responses are the same, the traces differ by the log
    line, and the stores agree when they did before.  What is left is the
    part of the goal about the answer. *)
Ltac two_runs Htr :=
  split; [reflexivity|];
  split;
  [ cbn -[fmt.Sprintf]; rewrite Htr, <- !app_assoc; cbn [app];
    eexists; split; reflexivity
  | split; [cbn; congruence|] ].

(** C7. A read that fails for another reason than an absent key is logged
    and then handled as a miss: against a world that differs only in that
    its read reports the key absent, the handler gives the same response and
    makes the same calls, the log line about the failure apart.  The failure
    itself does not reach the client, and a provider that answers 200 with a
    body that decodes and encodes still gets the client a 200. *)
Theorem read_failure_is_a_miss `{strings.Unicode} `{json.Codec}
    (s : WeatherService) (city : string) (w wm : World) (msg : string) :
  readFault w = Some msg ->
  redis.reply wm (cacheKey city) = Err redis.Nil ->
  upstream wm = upstream w ->
  writeFault wm = writeFault w ->
  trace wm = trace w ->
  let (r1, w1) := getWeather s (fiber.request city) w in
  let (r2, w2) := getWeather s (fiber.request city) wm in
  r1 = r2 /\
  (exists rest,
      trace w2 = (trace w ++ RedisGet (cacheKey city) :: rest)%list /\
      trace w1 =
      (trace w ++ RedisGet (cacheKey city) ::
         LogLine (fmt.Sprintf "Redis error: %v" [msg]) :: rest)%list) /\
  (store wm = store w -> now wm = now w -> store w1 = store w2) /\
  (forall resp v raw,
      upstream w (url s city) = Ok resp ->
      StatusCode resp = 200 ->
      json.Decode (Body resp) Nil = (v, None) ->
      json.Marshal v = Ok raw ->
      answer r1 = (None, 200, "application/json", Some raw)).
Proof.
  intros Hf Hrm Hup Hwf Htr.
  assert (Hr : redis.reply w (cacheKey city) = Err (redis.Failure msg)).
  { unfold redis.reply. now rewrite Hf. }
  assert (Hsame : upstream wm (url s city) = upstream w (url s city))
    by now rewrite Hup.
  destruct (upstream w (url s city)) as [resp|e] eqn:Hu.
  2:{ rewrite (getWeather_unreachable _ _ _ _ _ Hr Hu),
        (getWeather_unreachable _ _ _ _ _ Hrm Hsame).
      two_runs Htr. discriminate. }
  destruct (Z.eq_dec (StatusCode resp) 200) as [Hs|Hs].
  2:{ rewrite (getWeather_rejected _ _ _ _ _ Hr Hu Hs),
        (getWeather_rejected _ _ _ _ _ Hrm Hsame Hs).
      two_runs Htr. intros resp' v raw [= <-] Hs'. contradiction. }
  destruct (json.Decode (Body resp) Nil) as [v [e|]] eqn:Hd.
  { rewrite (getWeather_malformed _ _ _ _ _ _ _ Hr Hu Hs Hd),
      (getWeather_malformed _ _ _ _ _ _ _ Hrm Hsame Hs Hd).
    two_runs Htr. intros resp' v' raw [= <-] _ Hd'. congruence. }
  assert (Hok : forall resp' v' raw,
              @Ok Response NetError resp = Ok resp' ->
              StatusCode resp' = 200 ->
              json.Decode (Body resp') Nil = (v', None) ->
              json.Marshal v' = Ok raw ->
              answer (fiber.JSON (fiber.request city) v) =
              (None, 200, "application/json", Some raw)).
  { intros resp' v' raw [= <-] _ Hd' Hm'.
    assert (v' = v) as -> by congruence. now apply answer_JSON_Ok. }
  destruct (json.Marshal v) as [js|e] eqn:Hm.
  2:{ rewrite (getWeather_unserializable _ _ _ _ _ _ _ Hr Hu Hs Hd Hm),
        (getWeather_unserializable _ _ _ _ _ _ _ Hrm Hsame Hs Hd Hm).
      two_runs Htr. exact Hok. }
  destruct (writeFault w) as [wmsg|] eqn:Hw.
  - rewrite (getWeather_unwritable _ _ _ _ _ _ _ _ Hr Hu Hs Hd Hm Hw),
      (getWeather_unwritable _ _ _ _ _ _ _ _ Hrm Hsame Hs Hd Hm Hwf).
    two_runs Htr. exact Hok.
  - rewrite (getWeather_stored _ _ _ _ _ _ _ Hr Hu Hs Hd Hm Hw),
      (getWeather_stored _ _ _ _ _ _ _ Hrm Hsame Hs Hd Hm Hwf).
    two_runs Htr. exact Hok.
Qed.

(** The connection to the cache times out on the read; "Boston" is fetched
    and served as on an empty cache. *)
Lemma read_failure_is_a_miss_witness :
  let wm := double.world (Ok {| StatusCode := 200; Body := double.temp72 |}) in
  let w := double.withReadFault "i/o timeout" wm in
  let (r1, w1) := double.getWeather double.service (fiber.request "Boston") w in
  let (r2, w2) := double.getWeather double.service (fiber.request "Boston") wm in
  r1 = r2 /\
  (exists rest,
      trace w2 = ([] ++ RedisGet "weather:boston" :: rest)%list /\
      trace w1 =
      ([] ++ RedisGet "weather:boston" ::
         LogLine (fmt.Sprintf "Redis error: %v" ["i/o timeout"]) :: rest)%list) /\
  (store wm = store w -> now wm = now w -> store w1 = store w2) /\
  (forall resp v raw,
      upstream w (@url double.service "Boston") = Ok resp ->
      StatusCode resp = 200 ->
      double.decode (Body resp) Nil = (v, None) ->
      double.encode v = Ok raw ->
      answer r1 = (None, 200, "application/json", Some raw)).
Proof.
  exact (@read_failure_is_a_miss double.ascii double.codec
           double.service "Boston"
           (double.withReadFault "i/o timeout"
              (double.world
                 (Ok {| StatusCode := 200; Body := double.temp72 |})))
           (double.world
              (Ok {| StatusCode := 200; Body := double.temp72 |}))
           "i/o timeout" eq_refl eq_refl eq_refl eq_refl eq_refl).
Defined.




(** ** Start-up *)

(** C10, as the spec has it, fails: with no API key anywhere, a readable
    [.env] and a Redis server that answers, [main] goes on to listen. *)
Lemma missing_config_counterexample :
  ~ (forall h key, In key required -> absent h key -> exitsFatally (main h)).
Proof.
  intros claim.
  apply (claim double.hostWithoutKey "WEATHER_API_KEY").
  - left; reflexivity.
  - split; [reflexivity|].
    intros vars [= <-]. reflexivity.
Qed.

(** C10, amended. [main] ends in [log.Fatal], before any route is served,
    exactly when [.env] cannot be loaded or the PING of the cache fails.  A
    configuration value that is absent is read as the empty string and does
    not stop the start-up: with [.env] loaded and the PING answered, [main]
    listens with the service configured from whatever the environment
    holds. *)
Theorem startup_fatal_conditions (h : Host) :
  (dotenv h = None -> main h = Fatal "Error loading .env file") /\
  (forall vars,
      dotenv h = Some vars ->
      let env := environ h ∪ vars in
      let cfg :=
        {| WeatherAPIKey := os.Getenv env "WEATHER_API_KEY";
           RedisHost := os.Getenv env "REDIS_HOST";
           RedisPort := os.Getenv env "REDIS_PORT";
           RedisPassword := os.Getenv env "REDIS_PASSWORD" |} in
      let options :=
        {| redis.Addr :=
             fmt.Sprintf "%s:%s" [RedisHost cfg; RedisPort cfg];
           redis.Password := RedisPassword cfg;
           redis.DB := 0 |} in
      (forall err,
          ping h options = Some err ->
          main h =
          Fatal (fmt.Sprintf "Failed to connect to Redis: %v"
                   [redis.Error err])) /\
      (ping h options = None ->
       exists addr,
         main h = Listen addr {| config := cfg; redisClient := options |}) /\
      (forall key, absent h key -> os.Getenv env key = "")) /\
  (exitsFatally (main h) <->
   dotenv h = None \/
   exists vars err,
     dotenv h = Some vars /\
     ping h
       {| redis.Addr :=
            fmt.Sprintf "%s:%s"
              [os.Getenv (environ h ∪ vars) "REDIS_HOST";
               os.Getenv (environ h ∪ vars) "REDIS_PORT"];
          redis.Password := os.Getenv (environ h ∪ vars) "REDIS_PASSWORD";
          redis.DB := 0 |} = Some err).
Proof.
  unfold main, godotenv.Load. split; [|split].
  - now intros ->.
  - intros vars Hd. rewrite Hd. cbn -[fmt.Sprintf]. split; [|split].
    + intros err Hp. now rewrite Hp.
    + intros Hp. rewrite Hp. eexists; reflexivity.
    + intros key [He Hv]. unfold os.Getenv.
      rewrite lookup_union, He, (Hv vars Hd). reflexivity.
  - destruct (dotenv h) as [vars|] eqn:Hd.
    + cbn -[fmt.Sprintf].
      destruct (ping h _) as [err|] eqn:Hp; cbn.
      * split; [|easy]. intros _. right. exists vars, err. now split.
      * split; [easy|]. intros [|(vars' & err & [= <-] & Hp')]; [congruence|].
        assert (Hno : @None redis.error = Some err)
          by (rewrite <- Hp; exact Hp').
        discriminate Hno.
    + cbn. split; [now left | easy].
Qed.

(** Without its [.env] the process stops at once, and so it does when the
    cache does not answer; with both in place it listens on port 3000 even
    though no API key is set. *)
Lemma startup_fatal_conditions_witness :
  main double.hostWithoutFile = Fatal "Error loading .env file" /\
  main double.hostRedisDown =
  Fatal "Failed to connect to Redis: dial tcp: connection refused" /\
  exitsFatally (main double.hostRedisDown) /\
  ~ exitsFatally (main double.hostWithoutKey).
Proof.
  split; [|split; [|split]].
  - exact (proj1 (startup_fatal_conditions double.hostWithoutFile) eq_refl).
  - destruct (startup_fatal_conditions double.hostRedisDown)
      as (_ & Hping & _).
    destruct (Hping _ eq_refl) as (Hfatal & _).
    exact (Hfatal _ eq_refl).
  - apply (proj2 (proj2 (startup_fatal_conditions double.hostRedisDown))).
    right. eexists _, _. split; reflexivity.
  - intros Hf.
    apply (proj2 (proj2 (startup_fatal_conditions double.hostWithoutKey)))
      in Hf.
    destruct Hf as [Hf | (vars & err & _ & Hf)]; discriminate Hf.
Defined.

(** ** Every run of the handler *)

Lemma cacheReads_cons (e : Event) (t : list Event) :
  cacheReads (e :: t) = ((if isRedisGet e then 1 else 0) + cacheReads t)%nat.
Proof.
  unfold cacheReads. rewrite filter_cons.
  destruct (isRedisGet e); case_decide; simpl; congruence.
Qed.

(** Both kinds of run at once: the hit, and the six ways of a miss. *)
Ltac run_cases s city w :=
  let Hr := fresh "Hr" in
  destruct (redis.reply w (cacheKey city)) as [?cachedData|?err] eqn:Hr;
  [ rewrite (getWeather_hit s city w _ Hr) | miss_cases s city w Hr ].

(** Brings the trace of a finished run into the form [trace w ++ events]. *)
Ltac flatten_trace :=
  unfold afterFetch, afterMiss;
  repeat match goal with
         | |- context [redis.isNil ?err] => destruct (redis.isNil err)
         end;
  cbn [snd fst trace emit setStore];
  rewrite <- ?app_assoc; cbn [app].

Ltac count_all :=
  repeat first
    [ rewrite upstreamCalls_cons | rewrite cacheWrites_cons
    | rewrite cacheReads_cons
    | rewrite upstreamCalls_nil | rewrite cacheWrites_nil ];
  cbn [isHttpGet isRedisSetEx isRedisGet cacheReads filter length];
  try reflexivity; try lia.

(** A request reads the cache once, first of all, and then asks the
    provider at most once and writes the cache at most once, and it writes
    only after it has asked. *)
Theorem one_read_one_call_one_write `{strings.Unicode} `{json.Codec}
    (s : WeatherService) (city : string) (w : World) :
  exists rest,
    trace (snd (getWeather s (fiber.request city) w)) =
    (trace w ++ RedisGet (cacheKey city) :: rest)%list /\
    cacheReads rest = 0%nat /\
    (upstreamCalls rest <= 1)%nat /\
    (cacheWrites rest <= upstreamCalls rest)%nat.
Proof.
  run_cases s city w;
    flatten_trace;
    (eexists; split; [reflexivity|]);
    repeat split; count_all.
Qed.

(** What a run leaves alone: the clock, the health of the connections and
    the provider, and every key but its own. *)
Lemma getWeather_frame `{strings.Unicode} `{json.Codec}
    (s : WeatherService) (city : string) (w : World) :
  let w' := snd (getWeather s (fiber.request city) w) in
  now w' = now w /\ readFault w' = readFault w /\
  writeFault w' = writeFault w /\ upstream w' = upstream w /\
  forall k, k <> cacheKey city -> store w' !! k = store w !! k.
Proof.
  run_cases s city w; unfold afterFetch, afterMiss;
    repeat match goal with
           | |- context [redis.isNil ?err] => destruct (redis.isNil err)
           end;
    cbn; do 4 (split; [first [reflexivity | congruence]|]);
    intros k Hk; rewrite ?lookup_insert_ne by congruence; reflexivity.
Qed.

(** The store after a request is the store before it, or the store before
    it with the request's own key set to expire 43200 seconds from now; no
    other key is created, changed or removed. *)
Theorem only_own_key_written `{strings.Unicode} `{json.Codec}
    (s : WeatherService) (city : string) (w : World) :
  let w' := snd (getWeather s (fiber.request city) w) in
  (store w' = store w \/
   exists weatherJSON,
     store w' =
     <[cacheKey city :=
         {| value := weatherJSON; expireAt := now w + 43200 |}]> (store w)) /\
  (forall k, k <> cacheKey city -> store w' !! k = store w !! k) /\
  (forall k, store w !! k <> None -> store w' !! k <> None).
Proof.
  assert (Hkeep : forall (m : gmap string Entry) k0 e k,
             m !! k <> None -> <[k0 := e]> m !! k <> None).
  { intros m k0 e k Hk. destruct (decide (k0 = k)) as [->|Hne].
    - now rewrite lookup_insert_eq.
    - now rewrite lookup_insert_ne. }
  run_cases s city w; unfold afterFetch, afterMiss;
    repeat match goal with
           | |- context [redis.isNil ?err] => destruct (redis.isNil err)
           end;
    cbn;
    (split;
     [ first [left; reflexivity | right; eexists; reflexivity]
     | split;
       [ intros k Hk; rewrite ?lookup_insert_ne by congruence; reflexivity
       | intros k Hk; first [exact Hk | now apply Hkeep] ] ]).
Qed.

(** A request that ends without an error has set a JSON body.  An answer
    whose status is not 200 is one of the handler's three error documents,
    an object with the one member "error", and such a request has written
    nothing to the cache; nor has a request that ends with an error.  Put
    the other way round, a request that wrote to the cache ended without an
    error on a 200. *)
Theorem error_answers_write_nothing `{strings.Unicode} `{json.Codec}
    (s : WeatherService) (city : string) (w : World) :
  let (r, w') := getWeather s (fiber.request city) w in
  (snd r = None ->
   exists raw,
     fiber.body (fst r) = Some raw /\
     fiber.contentType (fst r) = "application/json") /\
  (fiber.status (fst r) <> 200 ->
   (exists msg,
       In msg errorMessages /\
       answer r =
       (None, fiber.status (fst r), "application/json",
        Some ("{" ++ String "034" "error" ++ String "034" ":"
              ++ String "034" (msg ++ String "034" "}")))) /\
   cacheWrites (trace w') = cacheWrites (trace w) /\
   store w' = store w) /\
  (snd r <> None ->
   cacheWrites (trace w') = cacheWrites (trace w) /\ store w' = store w) /\
  (cacheWrites (trace w') <> cacheWrites (trace w) ->
   snd r = None /\ fiber.status (fst r) = 200).
Proof.
  assert (Hmsg : forall (c : fiber.Ctx) msg,
             In msg errorMessages ->
             fiber.JSON c (fiber.Map "error" msg) =
             ({| fiber.params := fiber.params c;
                 fiber.status := fiber.status c;
                 fiber.contentType := "application/json";
                 fiber.body :=
                   Some ("{" ++ String "034" "error" ++ String "034" ":"
                         ++ String "034" (msg ++ String "034" "}")) |},
              None)).
  { intros c msg [<-|[<-|[<-|[]]]];
      (erewrite JSON_Ok; [reflexivity|]);
      unfold fiber.Map; now rewrite json.Marshal_member. }
  assert (Hfail : forall (c : fiber.Ctx) msg w',
             In msg errorMessages ->
             cacheWrites (trace w') = cacheWrites (trace w) ->
             store w' = store w ->
             let r := fiber.JSON c (fiber.Map "error" msg) in
             (snd r = None ->
              exists raw,
                fiber.body (fst r) = Some raw /\
                fiber.contentType (fst r) = "application/json") /\
             (fiber.status (fst r) <> 200 ->
              (exists msg,
                  In msg errorMessages /\
                  answer r =
                  (None, fiber.status (fst r), "application/json",
                   Some ("{" ++ String "034" "error" ++ String "034" ":"
                         ++ String "034" (msg ++ String "034" "}")))) /\
              cacheWrites (trace w') = cacheWrites (trace w) /\
              store w' = store w) /\
             (snd r <> None ->
              cacheWrites (trace w') = cacheWrites (trace w) /\
              store w' = store w) /\
             (cacheWrites (trace w') <> cacheWrites (trace w) ->
              snd r = None /\ fiber.status (fst r) = 200)).
  { intros c msg w' Hin Hcw Hst. cbv zeta. rewrite (Hmsg c msg Hin).
    split; [intros _; eexists; split; reflexivity|].
    split; [intros _; split; [exists msg; now split | now split]|].
    split; [now intros _ | intros Hne; now elim Hne]. }
  assert (Hgood : forall (v : any) w',
             (forall e, json.Marshal v = Err e ->
                        cacheWrites (trace w') = cacheWrites (trace w) /\
                        store w' = store w) ->
             let r := fiber.JSON (fiber.request city) v in
             (snd r = None ->
              exists raw,
                fiber.body (fst r) = Some raw /\
                fiber.contentType (fst r) = "application/json") /\
             (fiber.status (fst r) <> 200 ->
              (exists msg,
                  In msg errorMessages /\
                  answer r =
                  (None, fiber.status (fst r), "application/json",
                   Some ("{" ++ String "034" "error" ++ String "034" ":"
                         ++ String "034" (msg ++ String "034" "}")))) /\
              cacheWrites (trace w') = cacheWrites (trace w) /\
              store w' = store w) /\
             (snd r <> None ->
              cacheWrites (trace w') = cacheWrites (trace w) /\
              store w' = store w) /\
             (cacheWrites (trace w') <> cacheWrites (trace w) ->
              snd r = None /\ fiber.status (fst r) = 200)).
  { intros v w' Hquiet. cbv zeta.
    destruct (json.Marshal v) as [raw|e] eqn:Hm.
    - rewrite (JSON_Ok _ _ _ Hm); cbn.
      split; [intros _; eexists; split; reflexivity|].
      split; [intros Hne; now elim Hne|].
      split; [intros Hne; now elim Hne | now intros _].
    - rewrite (JSON_Err _ _ _ Hm); cbn.
      destruct (Hquiet e eq_refl) as (Hcw & Hst).
      split; [discriminate|].
      split; [intros Hne; now elim Hne|].
      split; [now intros _ | intros Hne; now elim Hne]. }
  run_cases s city w.
  - (* hit *)
    apply Hgood. intros e _. split; [count_events; lia | reflexivity].
  - (* malformed *)
    apply Hfail; [cbn; tauto | apply cacheWrites_afterFetch
                 | apply store_afterFetch].
  - (* the store refuses the write *)
    apply Hgood. intros e He. congruence.
  - (* stored *)
    apply Hgood. intros e He. congruence.
  - (* not serializable *)
    apply Hgood. intros e' _. split.
    + count_events. rewrite cacheWrites_afterFetch. lia.
    + cbn. apply store_afterMiss.
  - (* rejected *)
    apply Hfail; [cbn; tauto | apply cacheWrites_afterFetch
                 | apply store_afterFetch].
  - (* unreachable *)
    apply Hfail; [cbn; tauto | apply cacheWrites_afterFetch
                 | apply store_afterFetch].
Qed.

(** A 503 of the provider: the answer is an error document and the cache is
    not written. *)
Lemma error_answers_write_nothing_witness :
  let w := double.world (Ok {| StatusCode := 503; Body := "" |}) in
  let (r, w') := double.getWeather double.service (fiber.request "Boston") w in
  (exists msg,
      In msg errorMessages /\
      answer r =
      (None, fiber.status (fst r), "application/json",
       Some ("{" ++ String "034" "error" ++ String "034" ":"
             ++ String "034" (msg ++ String "034" "}")))) /\
  cacheWrites (trace w') = cacheWrites (trace w) /\
  store w' = store w.
Proof.
  apply (proj1 (proj2 (@error_answers_write_nothing double.ascii double.codec
                         double.service "Boston"
                         (double.world
                            (Ok {| StatusCode := 503; Body := "" |}))))).
  intros E. vm_compute in E. discriminate E.
Defined.

(** ** Requests in a row *)

Section Sequences.

Context `{strings.Unicode} `{json.Codec}.

(** The answer to a fetch that decodes, whatever becomes of the write. *)
Lemma getWeather_fetched (s : WeatherService) (city : string) (w : World)
    (err : redis.error) (resp : Response) (v : any) :
  redis.reply w (cacheKey city) = Err err ->
  upstream w (url s city) = Ok resp ->
  StatusCode resp = 200 ->
  json.Decode (Body resp) Nil = (v, None) ->
  fst (getWeather s (fiber.request city) w) = fiber.JSON (fiber.request city) v.
Proof.
  intros Hr Hu Hs Hd.
  destruct (json.Marshal v) as [js|e] eqn:Hm.
  - destruct (writeFault w) as [msg|] eqn:Hw.
    + now rewrite (getWeather_unwritable _ _ _ _ _ _ _ _ Hr Hu Hs Hd Hm Hw).
    + now rewrite (getWeather_stored _ _ _ _ _ _ _ Hr Hu Hs Hd Hm Hw).
  - now rewrite (getWeather_unserializable _ _ _ _ _ _ _ Hr Hu Hs Hd Hm).
Qed.

(** The response is settled by what the read of the key comes back with
    and by what the provider says at the request's URL. *)
Lemma getWeather_response_ext (s : WeatherService) (city : string)
    (w1 w2 : World) :
  redis.reply w1 (cacheKey city) = redis.reply w2 (cacheKey city) ->
  upstream w1 (url s city) = upstream w2 (url s city) ->
  fst (getWeather s (fiber.request city) w1) =
  fst (getWeather s (fiber.request city) w2).
Proof.
  intros Hr1 Hu1.
  destruct (redis.reply w2 (cacheKey city)) as [data|err] eqn:Hr2.
  { now rewrite (getWeather_hit _ _ _ _ Hr1), (getWeather_hit _ _ _ _ Hr2). }
  destruct (upstream w2 (url s city)) as [resp|e] eqn:Hu2.
  2:{ now rewrite (getWeather_unreachable _ _ _ _ _ Hr1 Hu1),
        (getWeather_unreachable _ _ _ _ _ Hr2 Hu2). }
  destruct (Z.eq_dec (StatusCode resp) 200) as [Hs|Hs].
  2:{ now rewrite (getWeather_rejected _ _ _ _ _ Hr1 Hu1 Hs),
        (getWeather_rejected _ _ _ _ _ Hr2 Hu2 Hs). }
  destruct (json.Decode (Body resp) Nil) as [v [e|]] eqn:Hd.
  - now rewrite (getWeather_malformed _ _ _ _ _ _ _ Hr1 Hu1 Hs Hd),
      (getWeather_malformed _ _ _ _ _ _ _ Hr2 Hu2 Hs Hd).
  - now rewrite (getWeather_fetched _ _ _ _ _ _ Hr1 Hu1 Hs Hd),
      (getWeather_fetched _ _ _ _ _ _ Hr2 Hu2 Hs Hd).
Qed.

(** The world a stored miss leaves behind, seen [dt] seconds later. *)
Lemma stored_then_advance (s : WeatherService) (city : string) (w : World)
    (resp : Response) (v : any) (weatherJSON : string) (dt : Z) :
  readFault w = None ->
  redis.live w (cacheKey city) = None ->
  upstream w (url s city) = Ok resp ->
  StatusCode resp = 200 ->
  json.Decode (Body resp) Nil = (v, None) ->
  json.Marshal v = Ok weatherJSON ->
  writeFault w = None ->
  let w1 := advance dt (snd (getWeather s (fiber.request city) w)) in
  fst (getWeather s (fiber.request city) w) = fiber.JSON (fiber.request city) v /\
  store w1 =
  <[cacheKey city := {| value := weatherJSON; expireAt := now w + 43200 |}]>
    (store w) /\
  now w1 = now w + dt /\ readFault w1 = None /\ writeFault w1 = None /\
  upstream w1 = upstream w /\
  upstreamCalls (trace w1) = S (upstreamCalls (trace w)).
Proof.
  intros Hrf Hlive Hu Hs Hd Hm Hw.
  assert (Hr : redis.reply w (cacheKey city) = Err redis.Nil).
  { unfold redis.reply. now rewrite Hrf, Hlive. }
  rewrite (getWeather_stored s city w _ resp v weatherJSON Hr Hu Hs Hd Hm Hw).
  cbn [fst snd]. split; [reflexivity|].
  do 5 (split; [cbn; first [reflexivity | assumption]|]).
  cbn [trace advance setStore emit]. count_events.
  rewrite upstreamCalls_afterFetch. lia.
Qed.

End Sequences.

(** A request for one city leaves the answers to every city with another
    key as they would have been: whatever the first request did, and however
    long after it the second one comes, the second is answered as if the
    first had never been made. *)
Theorem other_city_not_disturbed `{strings.Unicode} `{json.Codec}
    (s s' : WeatherService) (a b : string) (w : World) (dt : Z) :
  cacheKey a <> cacheKey b ->
  fst (getWeather s (fiber.request b)
         (advance dt (snd (getWeather s' (fiber.request a) w)))) =
  fst (getWeather s (fiber.request b) (advance dt w)).
Proof.
  intros Hne.
  destruct (getWeather_frame s' a w) as (Hnow & Hrf & _ & Hup & Hstore).
  apply getWeather_response_ext.
  - unfold redis.reply, redis.live, advance; cbn [readFault now store].
    rewrite Hrf, Hnow, (Hstore (cacheKey b)) by congruence. reflexivity.
  - unfold advance; cbn [upstream]. now rewrite Hup.
Qed.

(** "Boston" is fetched and stored; "Paris", an hour later, is answered as
    on the untouched cache. *)
Lemma other_city_not_disturbed_witness :
  let w := double.world (Ok {| StatusCode := 200; Body := double.temp72 |}) in
  fst (double.getWeather double.service (fiber.request "Paris")
         (advance 3600
            (snd (double.getWeather double.service (fiber.request "Boston") w)))) =
  fst (double.getWeather double.service (fiber.request "Paris") (advance 3600 w)).
Proof.
  apply (@other_city_not_disturbed double.ascii double.codec).
  intros E. discriminate E.
Defined.

(** When the stored string decodes back to the payload it was made from, a
    request that hits the entry, for the same city in any casing, gets the
    very answer the request that filled the cache got. *)
Theorem cached_answer_is_fresh_answer `{strings.Unicode} `{json.Codec}
    (s : WeatherService) (city city' : string) (w : World) (resp : Response)
    (v : any) (weatherJSON : string) (dt : Z) :
  readFault w = None ->
  redis.live w (cacheKey city) = None ->
  upstream w (url s city) = Ok resp ->
  StatusCode resp = 200 ->
  json.Decode (Body resp) Nil = (v, None) ->
  json.Marshal v = Ok weatherJSON ->
  writeFault w = None ->
  json.Unmarshal weatherJSON Nil = (v, None) ->
  strings.ToLower city' = strings.ToLower city ->
  0 <= dt < 43200 ->
  let w1 := advance dt (snd (getWeather s (fiber.request city) w)) in
  answer (fst (getWeather s (fiber.request city') w1)) =
  answer (fst (getWeather s (fiber.request city) w)) /\
  answer (fst (getWeather s (fiber.request city') w1)) =
  (None, 200, "application/json", Some weatherJSON).
Proof.
  intros Hrf Hlive Hu Hs Hd Hm Hw Hround Hcase Hdt.
  destruct (stored_then_advance s city w resp v weatherJSON dt
              Hrf Hlive Hu Hs Hd Hm Hw)
    as (Hfirst & Hstore & Hnow & Hrf1 & _).
  cbv zeta. set (w1 := advance dt _) in *.
  assert (Hkey : cacheKey city' = cacheKey city)
    by now rewrite !cacheKey_eq, Hcase.
  assert (Hr1 : redis.reply w1 (cacheKey city') = Ok weatherJSON).
  { apply reply_Ok_live. split; [exact Hrf1|]. rewrite Hkey.
    apply (live_advance_insert w1 _ _ (store w) 43200 dt); [|exact Hdt].
    rewrite Hstore, Hnow. do 3 f_equal. lia. }
  rewrite (getWeather_hit s city' w1 weatherJSON Hr1), Hfirst, Hround.
  cbn [fst]. rewrite !(answer_JSON_Ok _ _ _ Hm). split; reflexivity.
Qed.

(** "Boston", then "boston" ten minutes later. *)
Lemma cached_answer_is_fresh_answer_witness :
  let w := double.world (Ok {| StatusCode := 200; Body := double.temp72 |}) in
  let w1 :=
    advance 600
      (snd (double.getWeather double.service (fiber.request "Boston") w)) in
  answer (fst (double.getWeather double.service (fiber.request "boston") w1)) =
  answer (fst (double.getWeather double.service (fiber.request "Boston") w)) /\
  answer (fst (double.getWeather double.service (fiber.request "boston") w1)) =
  (None, 200, "application/json", Some double.temp72).
Proof.
  assert (Hdt : 0 <= 600 < 43200) by lia.
  exact (@cached_answer_is_fresh_answer double.ascii double.codec
           double.service "Boston" "boston"
           (double.world (Ok {| StatusCode := 200; Body := double.temp72 |}))
           {| StatusCode := 200; Body := double.temp72 |}
           double.temp72Value double.temp72 600
           eq_refl eq_refl eq_refl eq_refl eq_refl eq_refl eq_refl eq_refl
           eq_refl Hdt).
Defined.

(** An entry is good for 43200 seconds and no longer: a request for the
    same city that comes 43200 seconds or more after the request that stored
    it misses, asks the provider again and replaces the entry by one that
    expires 43200 seconds after this later request. *)
Theorem expired_entry_refetched `{strings.Unicode} `{json.Codec}
    (s : WeatherService) (city : string) (w : World) (resp : Response)
    (v : any) (weatherJSON : string) (dt : Z) :
  readFault w = None ->
  redis.live w (cacheKey city) = None ->
  upstream w (url s city) = Ok resp ->
  StatusCode resp = 200 ->
  json.Decode (Body resp) Nil = (v, None) ->
  json.Marshal v = Ok weatherJSON ->
  writeFault w = None ->
  43200 <= dt ->
  let w1 := advance dt (snd (getWeather s (fiber.request city) w)) in
  let (r2, w2) := getWeather s (fiber.request city) w1 in
  redis.live w1 (cacheKey city) = None /\
  answer r2 = (None, 200, "application/json", Some weatherJSON) /\
  upstreamCalls (trace w2) = S (S (upstreamCalls (trace w))) /\
  cacheWrites (trace w2) = S (cacheWrites (trace w1)) /\
  store w2 !! cacheKey city =
  Some {| value := weatherJSON; expireAt := now w + dt + 43200 |}.
Proof.
  intros Hrf Hlive Hu Hs Hd Hm Hw Hdt.
  destruct (stored_then_advance s city w resp v weatherJSON dt
              Hrf Hlive Hu Hs Hd Hm Hw)
    as (_ & Hstore & Hnow & Hrf1 & Hw1 & Hup & Hcalls).
  cbv zeta. set (w1 := advance dt _) in *.
  assert (Hgone : redis.live w1 (cacheKey city) = None).
  { unfold redis.live. rewrite Hstore, lookup_insert_eq, Hnow; cbn.
    destruct (Z.ltb_spec (now w + dt) (now w + 43200)); [lia | reflexivity]. }
  assert (Hr1 : redis.reply w1 (cacheKey city) = Err redis.Nil).
  { unfold redis.reply. now rewrite Hrf1, Hgone. }
  assert (Hu1 : upstream w1 (url s city) = Ok resp) by now rewrite Hup.
  rewrite (getWeather_stored s city w1 _ resp v weatherJSON
             Hr1 Hu1 Hs Hd Hm Hw1).
  split; [exact Hgone|]. split; [now apply answer_JSON_Ok|]. split; [|split].
  - cbn [trace setStore emit]. count_events.
    rewrite upstreamCalls_afterFetch, Hcalls. lia.
  - cbn [trace setStore emit]. count_events.
    rewrite cacheWrites_afterFetch. lia.
  - cbn [store emit setStore]. now rewrite lookup_insert_eq, Hnow.
Qed.

(** "Boston" again after thirteen hours. *)
Lemma expired_entry_refetched_witness :
  let w := double.world (Ok {| StatusCode := 200; Body := double.temp72 |}) in
  let w1 :=
    advance 46800
      (snd (double.getWeather double.service (fiber.request "Boston") w)) in
  let (r2, w2) := double.getWeather double.service (fiber.request "Boston") w1 in
  redis.live w1 "weather:boston" = None /\
  answer r2 = (None, 200, "application/json", Some double.temp72) /\
  upstreamCalls (trace w2) = 2%nat /\
  cacheWrites (trace w2) = S (cacheWrites (trace w1)) /\
  store w2 !! "weather:boston" =
  Some {| value := double.temp72; expireAt := 0 + 46800 + 43200 |}.
Proof.
  assert (Hdt : 43200 <= 46800) by lia.
  exact (@expired_entry_refetched double.ascii double.codec
           double.service "Boston"
           (double.world (Ok {| StatusCode := 200; Body := double.temp72 |}))
           {| StatusCode := 200; Body := double.temp72 |}
           double.temp72Value double.temp72 46800
           eq_refl eq_refl eq_refl eq_refl eq_refl eq_refl eq_refl Hdt).
Defined.

(** ** Keys that collide *)

Lemma eqFold_lowerByte (a b : ascii) :
  strings.lowerByte a = strings.lowerByte b -> strings.eqFoldByte a b = true.
Proof.
  unfold strings.lowerByte, strings.eqFoldByte, strings.isUpper.
  pose proof (N_ascii_bounded a) as Ba. pose proof (N_ascii_bounded b) as Bb.
  destruct (N.leb_spec 65 (N_of_ascii a)) as [La|La];
    destruct (N.leb_spec (N_of_ascii a) 90) as [Ua|Ua];
    destruct (N.leb_spec 65 (N_of_ascii b)) as [Lb|Lb];
    destruct (N.leb_spec (N_of_ascii b) 90) as [Ub|Ub];
    cbn [andb]; intros E;
    apply (f_equal N_of_ascii) in E;
    rewrite ?N_ascii_embedding in E by lia;
    destruct (N.eqb_spec (N_of_ascii a) (N_of_ascii b)) as [|NE];
    try reflexivity; try lia;
    repeat match goal with
           | |- context [(?x <=? ?y)%N] => destruct (N.leb_spec x y)
           | |- context [(?x =? ?y)%N] => destruct (N.eqb_spec x y)
           end; try reflexivity; lia.
Qed.

Lemma EqualFold_mapBytes (s t : string) :
  strings.mapBytes strings.lowerByte s = strings.mapBytes strings.lowerByte t ->
  strings.EqualFold s t = true.
Proof.
  revert t; induction s as [|a s IH]; intros [|b t]; simpl;
    try discriminate; [reflexivity|].
  intros [= Hab Hst]. rewrite (eqFold_lowerByte a b Hab). now apply IH.
Qed.

(** Two all-ASCII cities are cached under the same key exactly when they
    are equal up to the case of their letters: cities that differ in any
    other way never share an entry. *)
Theorem same_key_iff_same_city_up_to_case `{strings.Unicode}
    (c1 c2 : string) :
  strings.isASCII c1 = true ->
  strings.isASCII c2 = true ->
  (cacheKey c1 = cacheKey c2 <-> strings.EqualFold c1 c2 = true).
Proof.
  intros H1 H2. rewrite !cacheKey_eq, (ToLower_ASCII c1 H1), (ToLower_ASCII c2 H2).
  split.
  - intros E. apply (inj (String.append "weather:")) in E.
    now apply EqualFold_mapBytes.
  - intros E. now rewrite (mapBytes_EqualFold c1 c2 E).
Qed.

(** "Boston" and "BOSTON" share a key. *)
Lemma same_key_iff_same_city_up_to_case_witness :
  @cacheKey double.ascii "Boston" = @cacheKey double.ascii "BOSTON" <->
  strings.EqualFold "Boston" "BOSTON" = true.
Proof.
  exact (@same_key_iff_same_city_up_to_case double.ascii "Boston" "BOSTON"
           eq_refl eq_refl).
Defined.

(** ** What [main] hands to the handler *)

(** How [main] can have come to listen. *)
Lemma main_Listen_inv (h : Host) (addr : string) (svc : WeatherService) :
  main h = Listen addr svc ->
  exists vars,
    dotenv h = Some vars /\
    ping h (redisClient svc) = None /\
    WeatherAPIKey (config svc) =
    os.Getenv (environ h ∪ vars) "WEATHER_API_KEY" /\
    addr =
    ":" ++ (if String.eqb (os.Getenv (environ h ∪ vars) "PORT") ""
            then "3000" else os.Getenv (environ h ∪ vars) "PORT").
Proof.
  unfold main, godotenv.Load.
  destruct (dotenv h) as [vars|]; [|discriminate].
  cbn -[fmt.Sprintf String.eqb].
  destruct (ping h _) as [err|] eqn:Hp; [discriminate|].
  intros [= <- <-]. exists vars. cbn -[fmt.Sprintf String.eqb].
  repeat split. exact Hp.
Qed.

(** Whenever the process listens, it listens on port 3000 if [PORT] is not
    set or set to the empty string, and on the port [PORT] names otherwise;
    the address is never a bare colon. *)
Theorem listen_address (h : Host) (addr : string) (svc : WeatherService) :
  main h = Listen addr svc ->
  exists vars,
    dotenv h = Some vars /\
    (environ h !! "PORT" = None -> vars !! "PORT" = None -> addr = ":3000") /\
    (os.Getenv (environ h ∪ vars) "PORT" = "" -> addr = ":3000") /\
    (os.Getenv (environ h ∪ vars) "PORT" <> "" ->
     addr = ":" ++ os.Getenv (environ h ∪ vars) "PORT") /\
    addr <> ":".
Proof.
  intros Hm. destruct (main_Listen_inv h addr svc Hm)
    as (vars & Hd & _ & _ & ->).
  exists vars. split; [exact Hd|].
  destruct (String.eqb_spec (os.Getenv (environ h ∪ vars) "PORT") "")
    as [E|NE].
  - repeat split; try reflexivity; try discriminate.
    intros NE; now elim NE.
  - repeat split; try reflexivity.
    + intros He Hv. elim NE. unfold os.Getenv.
      now rewrite lookup_union, He, Hv.
    + intros E; now elim NE.
    + intros E. apply (inj (String.append ":") _ "") in E. now elim NE.
Qed.

(** No [PORT] anywhere: the process listens on ":3000". *)
Lemma listen_address_witness :
  exists vars,
    dotenv double.hostWithoutKey = Some vars /\
    (environ double.hostWithoutKey !! "PORT" = None ->
     vars !! "PORT" = None -> ":3000" = ":3000") /\
    (os.Getenv (environ double.hostWithoutKey ∪ vars) "PORT" = "" ->
     ":3000" = ":3000") /\
    (os.Getenv (environ double.hostWithoutKey ∪ vars) "PORT" <> "" ->
     ":3000" = ":" ++ os.Getenv (environ double.hostWithoutKey ∪ vars) "PORT") /\
    ":3000" <> ":".
Proof.
  exact (listen_address double.hostWithoutKey ":3000" _ eq_refl).
Defined.

(** The service [main] starts asks the provider with the [WEATHER_API_KEY]
    of the environment: on every miss the one upstream call goes to the base
    URL, the city, and "?key=" followed by that value, which is nothing at
    all when the variable is absent. *)
Theorem served_requests_use_environment_key `{strings.Unicode} `{json.Codec}
    (h : Host) (addr : string) (svc : WeatherService)
    (city : string) (w : World) (err : redis.error) :
  main h = Listen addr svc ->
  redis.reply w (cacheKey city) = Err err ->
  exists vars,
    dotenv h = Some vars /\
    In (HttpGet
          ("https://weather.visualcrossing.com/VisualCrossingWebServices/rest/services/timeline"
           ++ "/" ++ city ++ "?key="
           ++ os.Getenv (environ h ∪ vars) "WEATHER_API_KEY"))
       (trace (snd (getWeather svc (fiber.request city) w))) /\
    (absent h "WEATHER_API_KEY" ->
     In (HttpGet
           ("https://weather.visualcrossing.com/VisualCrossingWebServices/rest/services/timeline"
            ++ "/" ++ city ++ "?key="))
        (trace (snd (getWeather svc (fiber.request city) w)))).
Proof.
  intros Hm Hr.
  destruct (main_Listen_inv h addr svc Hm) as (vars & Hd & _ & Hkey & _).
  destruct (getWeather_miss_trace svc city w err Hr) as (after & Ht & _).
  assert (Hin : In (HttpGet (url svc city))
                  (trace (snd (getWeather svc (fiber.request city) w)))).
  { rewrite Ht, trace_afterFetch.
    apply in_or_app; left. apply in_or_app; right. right.
    apply in_or_app; right. now left. }
  rewrite url_eq, Hkey in Hin.
  exists vars. split; [exact Hd|]. split; [exact Hin|].
  intros [He Hv]. unfold os.Getenv in Hin.
  now rewrite lookup_union, He, (Hv vars Hd) in Hin.
Qed.

(** Started without an API key, the service asks for "Boston" with an empty
    key. *)
Lemma served_requests_use_environment_key_witness :
  exists vars,
    dotenv double.hostWithoutKey = Some vars /\
    In (HttpGet
          ("https://weather.visualcrossing.com/VisualCrossingWebServices/rest/services/timeline"
           ++ "/" ++ "Boston" ++ "?key="
           ++ os.Getenv (environ double.hostWithoutKey ∪ vars)
                "WEATHER_API_KEY"))
       (trace
          (snd (@getWeather double.ascii double.codec
                  {| config :=
                       {| WeatherAPIKey := ""; RedisHost := "localhost";
                          RedisPort := "6379"; RedisPassword := "secret" |};
                     redisClient :=
                       {| redis.Addr := "localhost:6379";
                          redis.Password := "secret"; redis.DB := 0 |} |}
                  (fiber.request "Boston")
                  (double.world (Err {| netError := "connection refused" |}))))) /\
    (absent double.hostWithoutKey "WEATHER_API_KEY" ->
     In (HttpGet
           ("https://weather.visualcrossing.com/VisualCrossingWebServices/rest/services/timeline"
            ++ "/" ++ "Boston" ++ "?key="))
        (trace
           (snd (@getWeather double.ascii double.codec
                   {| config :=
                        {| WeatherAPIKey := ""; RedisHost := "localhost";
                           RedisPort := "6379"; RedisPassword := "secret" |};
                      redisClient :=
                        {| redis.Addr := "localhost:6379";
                           redis.Password := "secret"; redis.DB := 0 |} |}
                   (fiber.request "Boston")
                   (double.world
                      (Err {| netError := "connection refused" |})))))).
Proof.
  exact (@served_requests_use_environment_key double.ascii double.codec
           double.hostWithoutKey ":3000" _ "Boston"
           (double.world (Err {| netError := "connection refused" |}))
           redis.Nil eq_refl eq_refl).
Defined.

(** ** The cache the handler builds *)

(** A cache that holds only serialized documents, none of them with more
    than 43200 seconds to live, is still such a cache after any request,
    and after any time has passed: the handler never stores anything but
    the output of [json.Marshal], and never for longer than twelve hours. *)
Theorem handler_keeps_cache_filled `{strings.Unicode} `{json.Codec}
    (s : WeatherService) (city : string) (w : World) (dt : Z) :
  handlerFilled w ->
  0 <= dt ->
  handlerFilled (snd (getWeather s (fiber.request city) w)) /\
  handlerFilled (advance dt w).
Proof.
  intros Hinv Hdt. split.
  - intros k e.
    run_cases s city w; unfold afterFetch, afterMiss;
      repeat match goal with
             | |- context [redis.isNil ?err] => destruct (redis.isNil err)
             end;
      cbn [snd store now emit setStore];
      try (intros Hk; exact (Hinv k e Hk));
      (destruct (decide (cacheKey city = k)) as [<-|Hne];
       [ rewrite lookup_insert_eq; intros [= <-]; cbn;
         split; [eexists; eassumption | lia]
       | rewrite lookup_insert_ne by exact Hne;
         intros Hk; exact (Hinv k e Hk) ]).
  - intros k e Hk. destruct (Hinv k e Hk) as (Hv & He).
    split; [exact Hv|]. cbn. lia.
Qed.

(** The empty cache, one request for "Boston" and an hour. *)
Lemma handler_keeps_cache_filled_witness :
  let w := double.world (Ok {| StatusCode := 200; Body := double.temp72 |}) in
  @handlerFilled double.codec
    (snd (double.getWeather double.service (fiber.request "Boston") w)) /\
  @handlerFilled double.codec (advance 3600 w).
Proof.
  assert (Hdt : 0 <= 3600) by lia.
  refine (@handler_keeps_cache_filled double.ascii double.codec
            double.service "Boston"
            (double.world (Ok {| StatusCode := 200; Body := double.temp72 |}))
            3600 _ Hdt).
  intros k e Hk. unfold double.world in Hk; cbn [store] in Hk.
  rewrite lookup_empty in Hk. discriminate Hk.
Defined.
